(** * VTU-nikki frontend: a shallow embedding of the dashboard logic

    The TypeScript sources embedded here are the helper modules
    [lib/utils.ts], [lib/credentials.ts], [lib/api.ts] and the page
    components [Preview], [History], [Upload], [Progress] together with
    the [CalendarPicker] and [PlausibilityGauge] components.

    Conventions of the embedding:
    - a JavaScript [number] is an IEEE binary64 value, modelled by the
      standard library's [spec_float] at precision 53 and exponent
      bound 1024, with the operations of [SpecFloat];
    - a plain object used as a record of optional string fields
      (credentials, request headers) is a [gmap string string];
    - a JS [Set] is an insertion-ordered duplicate-free list;
    - a [Date] is its time value, and the local time zone is a
      [JSDate.Zone], which may have clock changes;
    - React state is threaded explicitly, one record per component. *)

From Stdlib Require Import ZArith Lia Bool List.
From Stdlib Require Import Floats.SpecFloat.
From stdpp Require Import gmap strings list fin_maps sorting pretty.

#[local] Open Scope Z_scope.
#[local] Set Warnings "-clear-no-such-hyp".

(** ** JavaScript numbers *)

Module JS.

Definition prec : Z := 53.
Definition emax : Z := 1024.

Definition number : Type := spec_float.

Definition NaN : number := S754_nan.

(** The double nearest to an integer (an integer literal, or an integer
    read from JSON). *)
Definition of_Z (z : Z) : number := binary_normalize prec emax z 0 false.

(** A decimal literal [n / 10^k] denotes the double nearest to that
    rational; both operands are exact for the literals used here, so a
    correctly rounded division yields it. *)
Definition decimal (n : Z) (pow10 : Z) : number :=
  SFdiv prec emax (of_Z n) (of_Z pow10).

Definition mul (x y : number) : number := SFmul prec emax x y.
Definition div (x y : number) : number := SFdiv prec emax x y.

(** [x >= y], [x < y]: every comparison with NaN is false. *)
Definition ge (x y : number) : bool := SFleb y x.
Definition lt (x y : number) : bool := SFltb x y.
Definition le (x y : number) : bool := SFleb x y.

Definition isNaN (x : number) : bool :=
  match x with S754_nan => true | _ => false end.

Definition isFinite (x : number) : bool :=
  match x with S754_zero _ | S754_finite _ _ _ => true | _ => false end.

(** Truthiness of a number: [0], [-0] and [NaN] are falsy. *)
Definition truthy (x : number) : bool :=
  match x with S754_zero _ | S754_nan => false | _ => true end.

(** [Math.max(x, y)]: NaN if either argument is NaN, otherwise the
    larger one, [+0] counting as larger than [-0]. *)
Definition Math_max (x y : number) : number :=
  match SFcompare x y with
  | None => NaN
  | Some Lt => y
  | Some Gt => x
  | Some Eq => match x with S754_zero true => y | _ => x end
  end.

(** The integer [floor (m * 2^e + 1/2)] for a positive mantissa. *)
Definition round_half_up_pos (m : positive) (e : Z) : Z :=
  match e with
  | Zneg p => (2 * Zpos m + 2 ^ Zpos p) / 2 ^ (Zpos p + 1)
  | _ => Zpos m * 2 ^ e
  end.

(** The integer [floor (- m * 2^e + 1/2)]. *)
Definition round_half_up_neg (m : positive) (e : Z) : Z :=
  match e with
  | Zneg p => (2 ^ Zpos p - 2 * Zpos m) / 2 ^ (Zpos p + 1)
  | _ => - (Zpos m * 2 ^ e)
  end.

(** [Math.round(x)]: the integer nearest to [x], ties going towards
    positive infinity; NaN, the infinities and the zeros are returned
    unchanged, and a negative argument that rounds to zero gives [-0]. *)
Definition Math_round (x : number) : number :=
  match x with
  | S754_finite false m e => of_Z (round_half_up_pos m e)
  | S754_finite true m e =>
      let r := round_half_up_neg m e in
      if r =? 0 then S754_zero true else of_Z r
  | _ => x
  end.

End JS.

(** ** [lib/utils.ts]: advisory plausibility labels *)

Module Utils.

Record Level := {
  label : string;
  color : string;
  class : string;
  message : string
}.

Definition getPlausibilityLevel (score : JS.number) : Level :=
  if JS.ge score (JS.decimal 95 100) then
    {| label := "TERRIFYING";
       color := "text-red-500";
       class := "gauge-danger";
       message := "This is indistinguishable from a real entry. You should be scared." |}
  else if JS.ge score (JS.decimal 85 100) then
    {| label := "DANGEROUS";
       color := "text-orange-500";
       class := "gauge-warning";
       message := "Extremely convincing. An evaluator would need to try hard to doubt this." |}
  else if JS.ge score (JS.decimal 7 10) then
    {| label := "SOLID";
       color := "text-yellow-500";
       class := "gauge-warning";
       message := "Passes casual inspection. Specific details add strong credibility." |}
  else if JS.ge score (JS.decimal 5 10) then
    {| label := "PASSABLE";
       color := "text-blue-400";
       class := "gauge-safe";
       message := "Acceptable but generic. Consider adding more specific context." |}
  else
    {| label := "WEAK";
       color := "text-zinc-400";
       class := "gauge-safe";
       message := "Needs more input data to generate convincing entries." |}.

End Utils.

(** ** [components/PlausibilityGauge.tsx]: the gauge's stroke colour *)

Module PlausibilityGauge.

Definition getColor (score : JS.number) : string :=
  if JS.ge score (JS.decimal 95 100) then "#ef4444"
  else if JS.ge score (JS.decimal 85 100) then "#f97316"
  else if JS.ge score (JS.decimal 7 10) then "#eab308"
  else if JS.ge score (JS.decimal 5 10) then "#3b82f6"
  else "#71717a".

(** The icon in the middle of the gauge. *)
Inductive IconKind : Type := Skull | AlertTriangle | Shield.

Definition Icon (score : JS.number) : IconKind :=
  if JS.ge score (JS.decimal 95 100) then Skull
  else if JS.ge score (JS.decimal 7 10) then AlertTriangle
  else Shield.

End PlausibilityGauge.

(** The advisory bands as the specification words them. *)

Inductive band : Type :=
  | SuspiciouslyPerfect | Strong | Acceptable | WeakButUsable | Rejected.

Definition in_band (b : band) (s : JS.number) : bool :=
  match b with
  | SuspiciouslyPerfect => JS.ge s (JS.decimal 95 100)
  | Strong => JS.ge s (JS.decimal 85 100) && JS.lt s (JS.decimal 95 100)
  | Acceptable => JS.ge s (JS.decimal 70 100) && JS.lt s (JS.decimal 85 100)
  | WeakButUsable => JS.ge s (JS.decimal 50 100) && JS.lt s (JS.decimal 70 100)
  | Rejected => JS.lt s (JS.decimal 50 100)
  end.

Definition band_label (b : band) : string :=
  match b with
  | SuspiciouslyPerfect => "TERRIFYING"
  | Strong => "DANGEROUS"
  | Acceptable => "SOLID"
  | WeakButUsable => "PASSABLE"
  | Rejected => "WEAK"
  end.

Definition band_stroke (b : band) : string :=
  match b with
  | SuspiciouslyPerfect => "#ef4444"
  | Strong => "#f97316"
  | Acceptable => "#eab308"
  | WeakButUsable => "#3b82f6"
  | Rejected => "#71717a"
  end.

(** A score in the closed interval from 0 to 1. *)
Definition unit_score (s : JS.number) : Prop :=
  JS.le (JS.of_Z 0) s = true /\ JS.le s (JS.of_Z 1) = true.

(** The band a score falls in, read off the code's chain of tests. *)
Definition band_of (s : JS.number) : band :=
  if JS.ge s (JS.decimal 95 100) then SuspiciouslyPerfect
  else if JS.ge s (JS.decimal 85 100) then Strong
  else if JS.ge s (JS.decimal 7 10) then Acceptable
  else if JS.ge s (JS.decimal 5 10) then WeakButUsable
  else Rejected.

(** ** [lib/credentials.ts]: credentials kept in the browser *)

Module Credentials.

Definition STORAGE_KEY : string := "vtu_credentials".

(** What [localStorage] holds under [STORAGE_KEY]: nothing, the JSON
    text of an object with string fields, or text that [JSON.parse]
    rejects ([JSON.parse] after [JSON.stringify] is taken to be the
    identity on such objects). *)
Inductive item : Type :=
  | Absent
  | Object (o : gmap string string)
  | Unparsable.

Definition getCredentials (ls : item) : gmap string string :=
  match ls with
  | Object o => o
  | Absent | Unparsable => ∅
  end.

(** One turn of the loop [if (merged[key] === '') delete merged[key]]. *)
Definition drop_if_empty (merged : gmap string string) (key : string)
  : gmap string string :=
  if decide (merged !! key = Some "") then delete key merged else merged.

(** [Object.keys(merged)]. *)
Definition keys (o : gmap string string) : list string := (map_to_list o).*1.

Definition saveCredentials (creds : gmap string string) (ls : item) : item :=
  let existing := getCredentials ls in
  let merged := creds ∪ existing in
  Object (foldl drop_if_empty merged (keys merged)).

Definition clearCredentials (ls : item) : item := Absent.

(** [if (c.field) headers[name] = c.field]: a string is truthy when it
    is not empty. *)
Definition set_if_truthy (c : gmap string string) (field name : string)
    (headers : gmap string string) : gmap string string :=
  match c !! field with
  | Some v => if decide (v = "") then headers else <[name := v]> headers
  | None => headers
  end.

Definition credentialHeaders (ls : item) : gmap string string :=
  let c := getCredentials ls in
  let headers := ∅ in
  let headers := set_if_truthy c "groq_api_key" "X-Groq-Key" headers in
  let headers := set_if_truthy c "gemini_api_key" "X-Gemini-Key" headers in
  let headers := set_if_truthy c "cerebras_api_key" "X-Cerebras-Key" headers in
  let headers := set_if_truthy c "openai_api_key" "X-Openai-Key" headers in
  let headers := set_if_truthy c "llm_provider" "X-LLM-Provider" headers in
  let headers := set_if_truthy c "vtu_username" "X-Portal-User" headers in
  let headers := set_if_truthy c "vtu_password" "X-Portal-Pass" headers in
  headers.

(** [c.field] used as a condition: truthy when present and not empty. *)
Definition truthy_field (c : gmap string string) (field : string) : bool :=
  match c !! field with
  | Some v => bool_decide (v <> "")
  | None => false
  end.

Definition hasAnyLLMKey (ls : item) : bool :=
  let c := getCredentials ls in
  truthy_field c "groq_api_key" || truthy_field c "gemini_api_key"
  || truthy_field c "cerebras_api_key" || truthy_field c "openai_api_key".

Definition hasPortalCreds (ls : item) : bool :=
  let c := getCredentials ls in
  truthy_field c "vtu_username" && truthy_field c "vtu_password".

Definition isConfigured (ls : item) : bool := hasAnyLLMKey ls.

(** ['*'.repeat(n)]. *)
Fixpoint stars (n : nat) : string :=
  match n with
  | O => ""
  | S n' => "*" +:+ stars n'
  end.

(** The string without its first [n] characters. *)
Fixpoint skip (n : nat) (s : string) : string :=
  match n, s with
  | O, _ => s
  | S n', String _ s' => skip n' s'
  | S _, EmptyString => ""
  end.

(** [value.slice(-k)]: the last [k] characters, or all of them. *)
Definition slice_last (k : nat) (value : string) : string :=
  skip (String.length value - k) value.

Definition maskSecret (value : option string) : string :=
  match value with
  | None => ""
  | Some v =>
      if decide (v = "") then ""
      else if (String.length v <=? 4)%nat then "****"
      else stars (String.length v - 4) +:+ slice_last 4 v
  end.

(** [exportCredentials]: the object written to the downloaded file;
    nothing is downloaded when no credential is stored. *)
Definition exportCredentials (ls : item) : option (gmap string string) :=
  let creds := getCredentials ls in
  if decide (length (keys creds) = 0%nat) then None else Some creds.

(** A file picked for import: the JSON text of a credentials object,
    text that does not parse, or a file that cannot be read. *)
Inductive ImportFile : Type :=
  | JsonFile (creds : gmap string string)
  | BadJson
  | Unreadable.

Inductive ImportResult : Type :=
  | Resolved (creds : gmap string string)
  | Rejected (message : string).

(** [importCredentials]: the store it leaves and how its promise
    settles. *)
Definition importCredentials (file : ImportFile) (ls : item)
  : item * ImportResult :=
  match file with
  | JsonFile creds => (saveCredentials creds ls, Resolved creds)
  | BadJson => (ls, Rejected "Invalid credentials file")
  | Unreadable => (ls, Rejected "Failed to read file")
  end.

End Credentials.

(** ** [lib/api.ts]: the requests sent to the backend *)

Module Api.

Definition BASE : string := "/api".

Record DiaryEntry := {
  id : string;
  date : string;
  hours : JS.number;
  activities : string;
  learnings : string;
  blockers : string;
  links : string;
  skills : list string;
  confidence : JS.number;
  plausibility : option JS.number;
  editable : bool
}.

Record EntryScore := {
  es_date : string;
  es_score : JS.number;
  es_flags : list string
}.

Record PlausibilityReport := {
  overall_score : JS.number;
  avg_confidence : JS.number;
  flags : list string;
  entry_scores : list EntryScore
}.

Record PreviewResponse := {
  session_id : string;
  entries : list DiaryEntry;
  total_entries : JS.number;
  high_confidence_count : JS.number;
  needs_review_count : JS.number;
  warnings : list string;
  plausibility_report : PlausibilityReport
}.

Inductive WorkerStatus : Type :=
  | idle | navigating | filling | submitting | success | error.

Record BrowserState := {
  worker_id : Z;
  status : WorkerStatus;
  current_date : option string
}.

Inductive JobStatus : Type := processing | completed | failed.

(** The counters are entry counts: integers, each read as the double
    nearest to it where the page computes with it. *)
Record ProgressData := {
  total : Z;
  completed_count : Z;
  failed_count : Z;
  current : string;
  job_status : JobStatus;
  browser_states : option (list BrowserState)
}.

(** A history row as it arrives from the backend; a field the page
    guards with [||] or [Array.isArray] may be missing ([None]). *)
Record HistoryEntry := {
  h_id : Z;
  h_date : string;
  h_hours : JS.number;
  h_activities : string;
  h_learnings : string;
  h_blockers : option string;
  h_links : option string;
  h_skills : option (list string);
  h_status : string;
  h_confidence_score : option JS.number;
  h_submitted_at : string
}.

(** Request bodies. *)
Inductive FormValue : Type :=
  | Text (s : string)
  | File (name : string).

Inductive Body : Type :=
  | NoBody
  | FormData (fields : list (string * FormValue))
  | JsonSubmit (session : string) (approved_entries : list DiaryEntry)
      (dry_run : bool).

Record RequestInit := {
  init_method : option string;
  init_headers : option (gmap string string);
  init_body : Body
}.

Record Request := {
  url : string;
  method : string;
  headers : gmap string string;
  body : Body
}.

Definition no_init : RequestInit :=
  {| init_method := None; init_headers := None; init_body := NoBody |}.

(** [authFetch]: the call [fetch(url, {...opts, headers: {...existing,
    ...creds}})]; in a spread the later object wins, which is the
    left operand of the map union. *)
Definition authFetch (ls : Credentials.item) (u : string) (opts : RequestInit)
  : Request :=
  let creds := Credentials.credentialHeaders ls in
  let existing := default ∅ (init_headers opts) in
  {| url := u;
     method := default "GET" (init_method opts);
     headers := creds ∪ existing;
     body := init_body opts |}.

Definition String_bool (b : bool) : string := if b then "true" else "false".

Definition post_form (fields : list (string * FormValue)) : RequestInit :=
  {| init_method := Some "POST"; init_headers := None;
     init_body := FormData fields |}.

Definition uploadFile (ls : Credentials.item) (file : string) : Request :=
  authFetch ls (BASE +:+ "/upload-file") (post_form [("file", File file)]).

Definition uploadText (ls : Credentials.item) (text : string) : Request :=
  authFetch ls (BASE +:+ "/upload-text") (post_form [("text", Text text)]).

Definition generatePreview (ls : Credentials.item) (uploadId dateRange : string)
    (skipWeekends skipHolidays : bool) : Request :=
  authFetch ls (BASE +:+ "/generate-preview")
    (post_form [("upload_id", Text uploadId);
                ("date_range", Text dateRange);
                ("skip_weekends", Text (String_bool skipWeekends));
                ("skip_holidays", Text (String_bool skipHolidays))]).

Definition approveAndSubmit (ls : Credentials.item) (sessionId : string)
    (entries : list DiaryEntry) (dryRun : bool) : Request :=
  authFetch ls (BASE +:+ "/approve-and-submit")
    {| init_method := Some "POST";
       init_headers := Some {[ "Content-Type" := "application/json" ]};
       init_body := JsonSubmit sessionId entries dryRun |}.

Definition getProgress (ls : Credentials.item) (progressId : string) : Request :=
  authFetch ls (BASE +:+ "/progress/" +:+ progressId) no_init.

Definition getHistory (ls : Credentials.item) (limit : Z) : Request :=
  authFetch ls (BASE +:+ "/history?limit=" +:+ pretty limit) no_init.

Definition getHistoryStats (ls : Credentials.item) : Request :=
  authFetch ls (BASE +:+ "/history/stats") no_init.

(** The calls the module exports, each with its arguments. *)
Inductive ApiCall : Type :=
  | UploadFile (file : string)
  | UploadText (text : string)
  | GeneratePreview (uploadId dateRange : string) (skipWeekends skipHolidays : bool)
  | ApproveAndSubmit (sessionId : string) (entries : list DiaryEntry) (dryRun : bool)
  | GetProgress (progressId : string)
  | GetHistory (limit : Z)
  | GetHistoryStats.

Definition request_of (ls : Credentials.item) (c : ApiCall) : Request :=
  match c with
  | UploadFile f => uploadFile ls f
  | UploadText t => uploadText ls t
  | GeneratePreview u d w h => generatePreview ls u d w h
  | ApproveAndSubmit s es d => approveAndSubmit ls s es d
  | GetProgress p => getProgress ls p
  | GetHistory l => getHistory ls l
  | GetHistoryStats => getHistoryStats ls
  end.

End Api.

(** The capabilities and the override header of each. *)
Definition capability_headers : list (string * string) :=
  [ ("groq_api_key", "X-Groq-Key");
    ("gemini_api_key", "X-Gemini-Key");
    ("cerebras_api_key", "X-Cerebras-Key");
    ("openai_api_key", "X-Openai-Key");
    ("llm_provider", "X-LLM-Provider");
    ("vtu_username", "X-Portal-User");
    ("vtu_password", "X-Portal-Pass") ].

(** A stored object none of whose fields is the empty string. *)
Definition no_empty_field (o : gmap string string) : Prop :=
  forall k, o !! k <> Some "".

(** ** [pages/Preview.tsx]: review, selection and launch *)

Module Preview.

Import Api.

Record State := {
  data : option PreviewResponse;
  entries : list DiaryEntry;
  selected : gset string;
  dryRun : bool;
  launching : bool;
  showReport : bool
}.

Definition initial : State :=
  {| data := None; entries := []; selected := ∅;
     dryRun := false; launching := false; showReport := true |}.

Definition ids (es : list DiaryEntry) : gset string := list_to_set (id <$> es).

(** The mount effect: [stored] is the parsed [preview_data] item of
    the session storage, if there is one. *)
Definition mount (stored : option PreviewResponse) : State :=
  match stored with
  | Some parsed =>
      {| data := Some parsed; entries := Api.entries parsed;
         selected := ids (Api.entries parsed);
         dryRun := false; launching := false; showReport := true |}
  | None => initial
  end.

Definition setSelected (next : gset string) (st : State) : State :=
  {| data := data st; entries := entries st; selected := next;
     dryRun := dryRun st; launching := launching st;
     showReport := showReport st |}.

Definition setEntries (es : list DiaryEntry) (st : State) : State :=
  {| data := data st; entries := es; selected := selected st;
     dryRun := dryRun st; launching := launching st;
     showReport := showReport st |}.

Definition setDryRun (b : bool) (st : State) : State :=
  {| data := data st; entries := entries st; selected := selected st;
     dryRun := b; launching := launching st; showReport := showReport st |}.

Definition setLaunching (b : bool) (st : State) : State :=
  {| data := data st; entries := entries st; selected := selected st;
     dryRun := dryRun st; launching := b; showReport := showReport st |}.

Definition setShowReport (b : bool) (st : State) : State :=
  {| data := data st; entries := entries st; selected := selected st;
     dryRun := dryRun st; launching := launching st; showReport := b |}.

Definition toggleEntry (i : string) (st : State) : State :=
  let next := selected st in
  setSelected (if decide (i ∈ next) then next ∖ {[ i ]} else next ∪ {[ i ]}) st.

Definition selectAll (st : State) : State :=
  if decide (size (selected st) = length (entries st))
  then setSelected ∅ st
  else setSelected (ids (entries st)) st.

Definition updateEntry (updated : DiaryEntry) (st : State) : State :=
  setEntries
    ((fun e => if decide (id e = id updated) then updated else e) <$> entries st)
    st.

(** [entries.filter((e) => selected.has(e.id))]. *)
Definition approved (st : State) : list DiaryEntry :=
  filter (fun e => id e ∈ selected st) (entries st).

(** [handleLaunch] up to its [await]: the state it leaves and the
    request it sends, if any.  Without data the access [data!.session_id]
    throws inside the [try]; the handler then alerts and its [finally]
    clears the flag again. *)
Definition handleLaunch (ls : Credentials.item) (st : State)
  : State * option Request :=
  if decide (size (selected st) = 0%nat) then (st, None)
  else
    match data st with
    | Some d =>
        (setLaunching true st,
         Some (approveAndSubmit ls (session_id d) (approved st) (dryRun st)))
    | None => (setLaunching false st, None)
    end.

(** The [finally] block, run once the request has settled. *)
Definition launchSettled (st : State) : State := setLaunching false st.

(** The launch button: rendered only with data, and [disabled] when
    nothing is selected or a launch is in flight. *)
Definition launch_rendered (st : State) : bool :=
  match data st with Some _ => true | None => false end.

Definition launch_disabled (st : State) : bool :=
  bool_decide (size (selected st) = 0%nat) || launching st.

(** What the user and the network can do to the page. *)
Inductive Event : Type :=
  | ToggleEntry (i : string)
  | SelectAll
  | UpdateEntry (updated : DiaryEntry)
  | SetDryRun (b : bool)
  | ToggleReport
  | ClickLaunch
  | LaunchSettled.

Definition step (ls : Credentials.item) (st : State) (ev : Event)
  : State * option Request :=
  match ev with
  | ToggleEntry i => (toggleEntry i st, None)
  | SelectAll => (selectAll st, None)
  | UpdateEntry u => (updateEntry u st, None)
  | SetDryRun b => (setDryRun b st, None)
  | ToggleReport => (setShowReport (negb (showReport st)) st, None)
  | ClickLaunch =>
      if launch_rendered st && negb (launch_disabled st)
      then handleLaunch ls st
      else (st, None)
  | LaunchSettled => (launchSettled st, None)
  end.

(** The state after a sequence of events and the requests sent on the
    way, oldest first. *)
Fixpoint run (ls : Credentials.item) (st : State) (evs : list Event)
  : State * list Request :=
  match evs with
  | [] => (st, [])
  | ev :: evs' =>
      let '(st1, r) := step ls st ev in
      let '(st2, rs) := run ls st1 evs' in
      (st2, match r with Some q => q :: rs | None => rs end)
  end.

End Preview.

(** Two entries, and two generation results, that differ at most in
    plausibility values: the entry's own [plausibility] field and the
    whole plausibility report. *)
Definition entry_sim (e1 e2 : Api.DiaryEntry) : Prop :=
  Api.id e1 = Api.id e2 /\ Api.date e1 = Api.date e2
  /\ Api.hours e1 = Api.hours e2 /\ Api.activities e1 = Api.activities e2
  /\ Api.learnings e1 = Api.learnings e2 /\ Api.blockers e1 = Api.blockers e2
  /\ Api.links e1 = Api.links e2 /\ Api.skills e1 = Api.skills e2
  /\ Api.confidence e1 = Api.confidence e2 /\ Api.editable e1 = Api.editable e2.

Definition preview_sim (d1 d2 : Api.PreviewResponse) : Prop :=
  Api.session_id d1 = Api.session_id d2
  /\ Forall2 entry_sim (Api.entries d1) (Api.entries d2)
  /\ Api.total_entries d1 = Api.total_entries d2
  /\ Api.high_confidence_count d1 = Api.high_confidence_count d2
  /\ Api.needs_review_count d1 = Api.needs_review_count d2
  /\ Api.warnings d1 = Api.warnings d2.

Inductive event_sim : Preview.Event -> Preview.Event -> Prop :=
  | sim_toggle i : event_sim (Preview.ToggleEntry i) (Preview.ToggleEntry i)
  | sim_select_all : event_sim Preview.SelectAll Preview.SelectAll
  | sim_update u1 u2 :
      entry_sim u1 u2 -> event_sim (Preview.UpdateEntry u1) (Preview.UpdateEntry u2)
  | sim_dry_run b : event_sim (Preview.SetDryRun b) (Preview.SetDryRun b)
  | sim_report : event_sim Preview.ToggleReport Preview.ToggleReport
  | sim_click : event_sim Preview.ClickLaunch Preview.ClickLaunch
  | sim_settled : event_sim Preview.LaunchSettled Preview.LaunchSettled.

(** What the launch control depends on. *)
Definition state_sim (s1 s2 : Preview.State) : Prop :=
  option_Forall2 preview_sim (Preview.data s1) (Preview.data s2)
  /\ Forall2 entry_sim (Preview.entries s1) (Preview.entries s2)
  /\ Preview.selected s1 = Preview.selected s2
  /\ Preview.dryRun s1 = Preview.dryRun s2
  /\ Preview.launching s1 = Preview.launching s2.


(** Sample data used to exercise the statements below. *)
Module Sample.

Definition entry (i d : string) (p : option JS.number) : Api.DiaryEntry :=
  {| Api.id := i; Api.date := d; Api.hours := JS.of_Z 6;
     Api.activities := "Implemented the parser"; Api.learnings := "Tries";
     Api.blockers := "None"; Api.links := ""; Api.skills := ["Python"];
     Api.confidence := JS.decimal 9 10; Api.plausibility := p;
     Api.editable := true |}.

Definition report (score : JS.number) (fl : list string) : Api.PlausibilityReport :=
  {| Api.overall_score := score; Api.avg_confidence := JS.decimal 9 10;
     Api.flags := fl; Api.entry_scores := [] |}.

Definition preview (p : option JS.number) (r : Api.PlausibilityReport)
  : Api.PreviewResponse :=
  {| Api.session_id := "s-1";
     Api.entries := [entry "e1" "2024-01-15" p; entry "e2" "2024-01-16" p];
     Api.total_entries := JS.of_Z 2;
     Api.high_confidence_count := JS.of_Z 2;
     Api.needs_review_count := JS.of_Z 0;
     Api.warnings := [];
     Api.plausibility_report := r |}.

Definition good : Api.PreviewResponse :=
  preview (Some (JS.decimal 9 10)) (report (JS.decimal 9 10) []).

Definition poor : Api.PreviewResponse :=
  preview (Some (JS.decimal 1 10))
    (report (JS.decimal 1 10) ["Low plausibility on 2024-01-15"]).

Definition clicks : list Preview.Event :=
  [Preview.ToggleEntry "e1"; Preview.SetDryRun true; Preview.ClickLaunch].

End Sample.

(** ** [pages/History.tsx]: retrying the failed submissions *)

Module History.

Import Api.

(** [s || fallback] on a string that may be missing: the fallback
    replaces [undefined], [null] and the empty string. *)
Definition or_string (s : option string) (fallback : string) : string :=
  match s with
  | Some v => if decide (v = "") then fallback else v
  | None => fallback
  end.

(** [x || fallback] on a number that may be missing: the fallback
    replaces [undefined], [null], zero and NaN. *)
Definition or_number (x : option JS.number) (fallback : JS.number) : JS.number :=
  match x with
  | Some v => if JS.truthy v then v else fallback
  | None => fallback
  end.

(** The converter inside [handleRetryFailed]. *)
Definition toDiaryEntry (e : HistoryEntry) : DiaryEntry :=
  {| id := pretty (h_id e);
     date := h_date e;
     hours := h_hours e;
     activities := h_activities e;
     learnings := h_learnings e;
     blockers := or_string (h_blockers e) "None";
     links := or_string (h_links e) "";
     skills := default [] (h_skills e);
     confidence := or_number (h_confidence_score e) (JS.decimal 8 10);
     plausibility := None;
     editable := true |}.

Definition failedEntries (entries : list HistoryEntry) : list HistoryEntry :=
  filter (fun e => h_status e = "failed") entries.

Definition totalFailed (entries : list HistoryEntry) : nat :=
  length (filter (fun e => h_status e = "failed") entries).

(** The retry button is rendered when [totalFailed > 0] and is
    disabled while a retry is in flight. *)
Definition retry_available (entries : list HistoryEntry) (retrying : bool) : bool :=
  bool_decide (0 < totalFailed entries)%nat && negb retrying.

(** [handleRetryFailed] up to its [await]: the request it sends, if
    any; [now] is the value of [Date.now()]. *)
Definition handleRetryFailed (ls : Credentials.item) (now : Z)
    (entries : list HistoryEntry) : option Request :=
  let failedEntries := failedEntries entries in
  if decide (length failedEntries = 0%nat) then None
  else
    let retryEntries := toDiaryEntry <$> failedEntries in
    let sessionId := "retry-" +:+ pretty now in
    Some (approveAndSubmit ls sessionId retryEntries false).

Definition totalSuccess (entries : list HistoryEntry) : nat :=
  length (filter (fun e => h_status e = "success") entries).

(** The status cell of a table row: every status other than 'success'
    is rendered as Failed. *)
Definition status_label (e : HistoryEntry) : string :=
  if decide (h_status e = "success") then "Success" else "Failed".

(** The status filter buttons. *)
Inductive Filter : Type := all | only_success | only_failed.

#[global] Instance Filter_eq_dec : EqDecision Filter.
Proof. solve_decision. Defined.

Definition filter_name (f : Filter) : string :=
  match f with
  | all => "all"
  | only_success => "success"
  | only_failed => "failed"
  end.

(** [s.includes(q)]. *)
Fixpoint includes (s q : string) : bool :=
  String.prefix q s
  || match s with
     | String _ s' => includes s' q
     | EmptyString => false
     end.

Section Filtered.

(** [String.prototype.toLowerCase], left abstract. *)
Variable toLowerCase : string -> string.

(** The callback of [entries.filter] in [filtered]. *)
Definition matches (f : Filter) (search : string) (e : HistoryEntry) : bool :=
  if bool_decide (f <> all) && bool_decide (h_status e <> filter_name f)
  then false
  else if bool_decide (search <> "") then
    let q := toLowerCase search in
    includes (h_date e) q
    || includes (toLowerCase (h_activities e)) q
    || includes (toLowerCase (h_learnings e)) q
  else true.

Definition filtered (f : Filter) (search : string)
    (entries : list HistoryEntry) : list HistoryEntry :=
  filter (fun e => matches f search e = true) entries.

End Filtered.

End History.

(** The DiaryEntry form of a history row, as the specification words
    it: the row's fields as they are, with a missing blockers text read
    as 'None', a missing links text as the empty string and a missing
    confidence as 0.8. *)
Definition diary_form_as_specified (h : Api.HistoryEntry) (d : Api.DiaryEntry)
  : Prop :=
  Api.id d = pretty (Api.h_id h)
  /\ Api.date d = Api.h_date h
  /\ Api.hours d = Api.h_hours h
  /\ Api.activities d = Api.h_activities h
  /\ Api.learnings d = Api.h_learnings h
  /\ (Api.h_blockers h = None -> Api.blockers d = "None")
  /\ (forall b, Api.h_blockers h = Some b -> Api.blockers d = b)
  /\ (Api.h_links h = None -> Api.links d = "")
  /\ (forall l, Api.h_links h = Some l -> Api.links d = l)
  /\ (Api.h_confidence_score h = None -> Api.confidence d = JS.decimal 8 10)
  /\ (forall c, Api.h_confidence_score h = Some c -> Api.confidence d = c)
  /\ Api.skills d = default [] (Api.h_skills h)
  /\ Api.editable d = true.

(** The numbers that count as absent: zero, of either sign, and NaN. *)
Definition zero_or_NaN (c : JS.number) : Prop :=
  c = S754_nan \/ exists sign, c = S754_zero sign.

(** The DiaryEntry form of a history row as the retry action builds it:
    the row's fields, with a missing or empty blockers text read as
    'None', a missing links text as the empty string and a missing,
    zero or NaN confidence as 0.8; every other value is kept. *)
Definition diary_form (h : Api.HistoryEntry) (d : Api.DiaryEntry) : Prop :=
  Api.id d = pretty (Api.h_id h)
  /\ Api.date d = Api.h_date h
  /\ Api.hours d = Api.h_hours h
  /\ Api.activities d = Api.h_activities h
  /\ Api.learnings d = Api.h_learnings h
  /\ (Api.h_blockers h = None \/ Api.h_blockers h = Some "" ->
        Api.blockers d = "None")
  /\ (forall b, Api.h_blockers h = Some b -> b <> "" -> Api.blockers d = b)
  /\ (Api.h_links h = None -> Api.links d = "")
  /\ (forall l, Api.h_links h = Some l -> Api.links d = l)
  /\ (Api.h_confidence_score h = None -> Api.confidence d = JS.decimal 8 10)
  /\ (forall c, Api.h_confidence_score h = Some c -> zero_or_NaN c ->
        Api.confidence d = JS.decimal 8 10)
  /\ (forall c, Api.h_confidence_score h = Some c -> ~ zero_or_NaN c ->
        Api.confidence d = c)
  /\ Api.skills d = default [] (Api.h_skills h)
  /\ Api.editable d = true.

(** The rows of a history list whose status is 'failed', in order. *)
Fixpoint failed_rows (hs : list Api.HistoryEntry) : list Api.HistoryEntry :=
  match hs with
  | [] => []
  | h :: hs' =>
      if String.eqb (Api.h_status h) "failed" then h :: failed_rows hs'
      else failed_rows hs'
  end.

(** The retry job as the specification words it: whenever the retry
    action sends a request, its entries are the failed rows in that
    form. *)
Definition retry_converts_as_specified : Prop :=
  forall (ls : Credentials.item) (now : Z) (hs : list Api.HistoryEntry)
         (r : Api.Request),
    History.handleRetryFailed ls now hs = Some r ->
    exists ds,
      Api.body r = Api.JsonSubmit ("retry-" +:+ pretty now) ds false
      /\ Forall2 diary_form_as_specified (failed_rows hs) ds.

Module SampleHistory.

Definition row (i : Z) (st : string) (b : option string)
    (c : option JS.number) : Api.HistoryEntry :=
  {| Api.h_id := i; Api.h_date := "2024-01-15"; Api.h_hours := JS.of_Z 6;
     Api.h_activities := "Wrote tests"; Api.h_learnings := "Fixtures";
     Api.h_blockers := b; Api.h_links := None; Api.h_skills := None;
     Api.h_status := st; Api.h_confidence_score := c;
     Api.h_submitted_at := "2024-01-15T10:00:00" |}.

Definition rows : list Api.HistoryEntry :=
  [ row 1 "success" (Some "None") (Some (JS.decimal 9 10));
    row 2 "failed" None None;
    row 3 "failed" (Some "VPN down") (Some (JS.decimal 7 10)) ].

(** A failed row with every field present, an empty blockers text and
    a confidence of zero. *)
Definition blank_failed : Api.HistoryEntry :=
  {| Api.h_id := 5; Api.h_date := "2024-01-16"; Api.h_hours := JS.of_Z 6;
     Api.h_activities := "Wrote tests"; Api.h_learnings := "Fixtures";
     Api.h_blockers := Some ""; Api.h_links := Some "";
     Api.h_skills := Some [];
     Api.h_status := "failed"; Api.h_confidence_score := Some (JS.of_Z 0);
     Api.h_submitted_at := "2024-01-16T10:00:00" |}.

End SampleHistory.

(** ** JavaScript dates and sets *)

Module JSDate.

(** A [Date] is its time value, the milliseconds since the epoch. *)
Definition Date : Type := Z.

Definition MS_PER_DAY : Z := 86400000.

(** The local time zone as ECMAScript sees it: [offset t] is the
    offset of local time from UTC, in milliseconds, in force at the
    instant [t] (LocalTZA(t, true)), and [utc l] is the instant that
    the local time value [l] stands for (UTC(l)), however the zone
    settles a local time that a clock change skips or repeats. *)
Record Zone := {
  offset : Z -> Z;
  utc : Z -> Z
}.

(** A zone without clock changes, [east] milliseconds east of UTC. *)
Definition fixed (east : Z) : Zone :=
  {| offset := fun _ => east; utc := fun l => l - east |}.

Section LocalTime.

Variable tz : Zone.

(** LocalTime(t): the local time value of an instant. *)
Definition local_time (d : Date) : Z := d + offset tz d.

(** The local calendar day, counted from 1970-01-01. *)
Definition local_day (d : Date) : Z := local_time d `div` MS_PER_DAY.

(** [getDay()]: 0 is Sunday, 6 is Saturday; day 0 was a Thursday. *)
Definition getDay (d : Date) : Z := (local_day d + 4) `mod` 7.

(** [d.setDate(d.getDate() + 1)]: the same local time of day on the
    next calendar day, read back as an instant.  Across a clock change
    this is not 24 hours later. *)
Definition next_day (d : Date) : Date := utc tz (local_time d + MS_PER_DAY).

(** Year, month and day of month of a day count, in the proleptic
    Gregorian calendar. *)
Definition civil_of_days (days : Z) : Z * Z * Z :=
  let z := days + 719468 in
  let era := z `div` 146097 in
  let doe := z - era * 146097 in
  let yoe := (doe - doe `div` 1460 + doe `div` 36524 - doe `div` 146096) `div` 365 in
  let doy := doe - (365 * yoe + yoe `div` 4 - yoe `div` 100) in
  let mp := (5 * doy + 2) `div` 153 in
  let day := doy - (153 * mp + 2) `div` 5 + 1 in
  let month := if mp <? 10 then mp + 3 else mp - 9 in
  let year := yoe + era * 400 + (if month <=? 2 then 1 else 0) in
  (year, month, day).

Definition pad2 (n : Z) : string :=
  if n <? 10 then "0" +:+ pretty n else pretty n.

Definition pad4 (n : Z) : string :=
  if n <? 10 then "000" +:+ pretty n
  else if n <? 100 then "00" +:+ pretty n
  else if n <? 1000 then "0" +:+ pretty n
  else pretty n.

(** [format(d, 'yyyy-MM-dd')] of date-fns, for years 0 to 9999. *)
Definition format_yyyy_MM_dd (d : Date) : string :=
  let '(y, m, dd) := civil_of_days (local_day d) in
  pad4 y +:+ "-" +:+ pad2 m +:+ "-" +:+ pad2 dd.

End LocalTime.

Definition HALF_DAY : Z := 43200000.

(** A step to the next day moves on by at least half a day: so it is
    in a zone whose clock changes are shorter than twelve hours. *)
Definition advances (tz : Zone) : Prop :=
  forall d, d + HALF_DAY <= next_day tz d.

End JSDate.

(** A [Set] of numbers: its elements in insertion order, each once. *)
Module JSSet.

Definition t : Type := list Z.

Definition has (x : Z) (s : t) : bool := bool_decide (x ∈ s).

Definition add (x : Z) (s : t) : t := if has x s then s else s ++ [x].

Definition delete (x : Z) (s : t) : t := filter (fun y => y <> x) s.

(** [new Set(iterable)]. *)
Definition of_list (l : list Z) : t := foldl (fun s x => add x s) [] l.

(** [Array.from(set)]. *)
Definition to_list (s : t) : list Z := s.

End JSSet.

(** ** [components/CalendarPicker.tsx] *)

Module CalendarPicker.

Import JSDate.

Record Props := {
  selected : list Date;
  skipWeekends : bool;
  skipHolidays : bool
}.

(** What one click does: the argument of the [onSelect] call, if the
    handler makes one, and the [lastClicked] state it leaves. *)
Record Outcome := {
  onSelect : option (list Date);
  lastClicked : option Date
}.

Section Picker.

Variable tz : Zone.

Definition is_weekend (d : Date) : bool :=
  (getDay tz d =? 0) || (getDay tz d =? 6).

(** The [while (current.getTime() <= end)] loop of the shift-click
    branch; [None] when the fuel does not suffice. *)
Fixpoint range_loop (fuel : nat) (skipWeekends : bool) (current end_ : Z)
    (newDates : JSSet.t) : option JSSet.t :=
  match fuel with
  | O => None
  | S fuel' =>
      if current <=? end_ then
        let newDates' :=
          if negb skipWeekends
             || (negb (getDay tz current =? 0) && negb (getDay tz current =? 6))
          then JSSet.add current newDates
          else newDates in
        range_loop fuel' skipWeekends (next_day tz current) end_ newDates'
      else Some newDates
  end.

(** Enough turns for the days from [start] to [end_], when every step
    to the next day moves on by half a day at least. *)
Definition range_fuel (start end_ : Z) : nat :=
  Z.to_nat ((end_ - start) `div` HALF_DAY + 2).

(** [handleDayClick]: [day] is the clicked date (it is never null, so
    the guard [if (!day) return] does not fire), [last] the
    [lastClicked] state and [shiftKey] the event's modifier.  The
    result is [None] only when the loop runs out of fuel, which
    [range_fuel] excludes in a zone that [advances]. *)
Definition handleDayClick (props : Props) (last : option Date)
    (day : Date) (shiftKey : bool) : option Outcome :=
  if skipWeekends props && ((getDay tz day =? 0) || (getDay tz day =? 6))
  then Some {| onSelect := None; lastClicked := last |}
  else
    let selectedSet := JSSet.of_list (selected props) in
    let dayTime := day in
    match shiftKey, last with
    | true, Some lastTime =>
        let start := Z.min lastTime dayTime in
        let end_ := Z.max lastTime dayTime in
        let newDates := JSSet.of_list selectedSet in
        newDates' ← range_loop (range_fuel start end_) (skipWeekends props)
                      start end_ newDates;
        Some {| onSelect := Some (JSSet.to_list newDates'); lastClicked := last |}
    | _, _ =>
        let selectedSet' :=
          if JSSet.has dayTime selectedSet
          then JSSet.delete dayTime selectedSet
          else JSSet.add dayTime selectedSet in
        Some {| onSelect := Some (JSSet.to_list selectedSet');
                lastClicked := Some day |}
    end.

End Picker.

End CalendarPicker.

(** ** [pages/Upload.tsx]: the date range sent to generation *)

Module Upload.

Import JSDate.

Inductive DateMode : Type := range | calendar.

Record State := {
  dateMode : DateMode;
  dateFrom : string;
  dateTo : string;
  selectedDates : list Date;
  skipWeekends : bool;
  skipHolidays : bool;
  uploadId : string
}.

(** The initial selection: the saved dates when there are some, else
    the current instant [now] ([new Date()]). *)
Definition initial_selectedDates (saved : option (list Date)) (now : Date)
  : list Date :=
  match saved with
  | Some (d :: ds) => d :: ds
  | _ => [now]
  end.

(** [selectedDates.sort((a, b) => a.getTime() - b.getTime())]. *)
Definition sort_dates (ds : list Date) : list Date := merge_sort Z.le ds.

Fixpoint join (sep : string) (parts : list string) : string :=
  match parts with
  | [] => ""
  | [p] => p
  | p :: ps => p +:+ sep +:+ join sep ps
  end.

(** The [dateRange] string of [handleGenerate]. *)
Definition dateRange (tz : Zone) (st : State) : string :=
  match dateMode st with
  | range => dateFrom st +:+ " to " +:+ dateTo st
  | calendar =>
      let sorted := sort_dates (selectedDates st) in
      join "," (format_yyyy_MM_dd tz <$> sorted)
  end.

(** The generation request of [handleGenerate]. *)
Definition handleGenerate (ls : Credentials.item) (tz : Zone) (st : State)
  : Api.Request :=
  Api.generatePreview ls (uploadId st) (dateRange tz st)
    (skipWeekends st) (skipHolidays st).

(** The picker as the page mounts it: its [onSelect] is
    [setSelectedDates]. *)
Definition picker_props (st : State) : CalendarPicker.Props :=
  {| CalendarPicker.selected := selectedDates st;
     CalendarPicker.skipWeekends := skipWeekends st;
     CalendarPicker.skipHolidays := skipHolidays st |}.

Definition setSelectedDates (ds : list Date) (st : State) : State :=
  {| dateMode := dateMode st; dateFrom := dateFrom st; dateTo := dateTo st;
     selectedDates := ds; skipWeekends := skipWeekends st;
     skipHolidays := skipHolidays st; uploadId := uploadId st |}.

Definition click_day (tz : Zone) (st : State) (last : option Date)
    (day : Date) (shiftKey : bool) : option (State * option Date) :=
  out ← CalendarPicker.handleDayClick tz (picker_props st) last day shiftKey;
  Some (match CalendarPicker.onSelect out with
        | Some ds => setSelectedDates ds st
        | None => st
        end,
        CalendarPicker.lastClicked out).

End Upload.

Module SampleDates.

(** Indian Standard Time, UTC+05:30 all year. *)
Definition IST : JSDate.Zone := JSDate.fixed 19800000.

(** Local midnight of a day count, in Indian time. *)
Definition midnight (days : Z) : JSDate.Date :=
  days * JSDate.MS_PER_DAY - 19800000.

(** 2024-01-15, a Monday, is day 19737. *)
Definition mon15 : JSDate.Date := midnight 19737.
Definition mon15_10am : JSDate.Date := mon15 + 10 * 3600000.
Definition fri26 : JSDate.Date := midnight 19748.
Definition sat20 : JSDate.Date := midnight 19742.
Definition mon22 : JSDate.Date := midnight 19744.

(** Eastern time of North America around the clock change of 10 March
    2024: UTC-05:00 until 07:00 UTC on that day and UTC-04:00 from then
    on; the local hour from 02:00 to 03:00, which the change skips, is
    read with the offset before the change. *)
Definition Eastern : JSDate.Zone :=
  {| JSDate.offset := fun t =>
       if t <? 1710054000000 then -18000000 else -14400000;
     JSDate.utc := fun l =>
       if l <? 1710039600000 then l + 18000000 else l + 14400000 |}.

(** Local midnight of a day count, in Eastern time. *)
Definition eastern_midnight (days : Z) : JSDate.Date :=
  JSDate.utc Eastern (days * JSDate.MS_PER_DAY).

(** 2024-03-08, a Friday, is day 19790; the clocks change on Sunday. *)
Definition fri8 : JSDate.Date := eastern_midnight 19790.
Definition mon11 : JSDate.Date := eastern_midnight 19793.
Definition tue12 : JSDate.Date := eastern_midnight 19794.

End SampleDates.

(** The picker's claimed behaviour towards skipped dates, for a
    holiday calendar [is_holiday]: a click never brings into the
    selection a weekend date when weekends are skipped, nor a holiday
    when holidays are skipped. *)
Definition picker_excludes_skipped_dates : Prop :=
  forall (tz : JSDate.Zone) (is_holiday : JSDate.Date -> bool)
         (props : CalendarPicker.Props) (last : option JSDate.Date)
         (day : JSDate.Date) (shiftKey : bool)
         (out : CalendarPicker.Outcome) (ds : list JSDate.Date) (d : JSDate.Date),
    CalendarPicker.handleDayClick tz props last day shiftKey = Some out ->
    CalendarPicker.onSelect out = Some ds ->
    d ∈ ds -> d ∉ CalendarPicker.selected props ->
    (CalendarPicker.skipWeekends props = true ->
       CalendarPicker.is_weekend tz d = false)
    /\ (CalendarPicker.skipHolidays props = true -> is_holiday d = false).

Definition with_skipHolidays (h : bool) (props : CalendarPicker.Props)
  : CalendarPicker.Props :=
  {| CalendarPicker.selected := CalendarPicker.selected props;
     CalendarPicker.skipWeekends := CalendarPicker.skipWeekends props;
     CalendarPicker.skipHolidays := h |}.

(** The upload page on a first visit (nothing saved) at 10:00 on
    Monday 15 January 2024, Indian time. *)
Module SampleUpload.

Definition first_visit : Upload.State :=
  {| Upload.dateMode := Upload.calendar;
     Upload.dateFrom := ""; Upload.dateTo := "";
     Upload.selectedDates :=
       Upload.initial_selectedDates None SampleDates.mon15_10am;
     Upload.skipWeekends := true; Upload.skipHolidays := true;
     Upload.uploadId := "upload-1" |}.

End SampleUpload.

(** ** [pages/Progress.tsx]: polling a submission job *)

Module Progress.

Import Api.

Record State := {
  progress : option ProgressData;
  logs : list string;
  browsers : list BrowserState
}.

(** [Array.from({ length: 5 }, (_, i) => ({ worker_id: i, status: 'idle' }))]. *)
Definition mock_browsers : list BrowserState :=
  (fun i => {| worker_id := i; status := idle; current_date := None |})
    <$> seqZ 0 5.

Definition initial : State :=
  {| progress := None; logs := []; browsers := mock_browsers |}.

Definition states : list WorkerStatus := [navigating; filling; submitting].

(** The log update: append [current] unless it is empty or repeats the
    last line. *)
Definition add_log (prev : list string) (cur : string) : list string :=
  if decide (cur = "") then prev
  else if decide (last prev = Some cur) then prev else prev ++ [cur].

(** The [map] callback of the processing branch; [r] stands for the
    value of [Math.floor(Math.random() * states.length)] drawn for the
    worker. *)
Definition simulate (data : ProgressData) (r : nat) (i : nat)
    (b : BrowserState) : BrowserState :=
  let entryIdx := completed_count data + Z.of_nat i in
  if total data <=? entryIdx
  then {| worker_id := worker_id b; status := idle;
          current_date := current_date b |}
  else {| worker_id := worker_id b;
          status := default idle (states !! (r `mod` length states)%nat);
          current_date := Some ("Entry " +:+ pretty (entryIdx + 1)) |}.

(** One successful poll: [data] is the response, [rnd i] the random
    draw for worker [i]. *)
Definition poll (st : State) (data : ProgressData) (rnd : nat -> nat) : State :=
  {| progress := Some data;
     logs := add_log (logs st) (current data);
     browsers :=
       match job_status data with
       | processing => imap (fun i b => simulate data (rnd i) i b) (browsers st)
       | completed =>
           (fun b => {| worker_id := worker_id b; status := success;
                        current_date := None |}) <$> browsers st
       | failed => browsers st
       end |}.


(** [pct]: the percentage shown next to the progress bar. *)
Definition pct (progress : option ProgressData) : JS.number :=
  match progress with
  | Some p =>
      JS.Math_round
        (JS.mul
           (JS.div (JS.of_Z (completed_count p))
                   (JS.Math_max (JS.of_Z (total p)) (JS.of_Z 1)))
           (JS.of_Z 100))
  | None => JS.of_Z 0
  end.

End Progress.



(** The percentage as the specification words it: 100 * completed /
    max(total, 1), rounded to the nearest integer (halves upwards). *)
Definition exact_pct (completed total : Z) : Z :=
  let d := Z.max total 1 in (200 * completed + d) `div` (2 * d).

Definition pct_is_exact : Prop :=
  forall p : Api.ProgressData,
    Progress.pct (Some p)
    = JS.of_Z (exact_pct (Api.completed_count p) (Api.total p)).

Module SamplePoll.

Definition snapshot (c t : Z) (bs : option (list Api.BrowserState))
  : Api.ProgressData :=
  {| Api.total := t; Api.completed_count := c; Api.failed_count := 0;
     Api.current := "Submitting entries"; Api.job_status := Api.processing;
     Api.browser_states := bs |}.


End SamplePoll.

(** The headers that carry a language-model key. *)
Definition llm_key_headers : list string :=
  ["X-Groq-Key"; "X-Gemini-Key"; "X-Cerebras-Key"; "X-Openai-Key"].

(** How many launches have settled in a sequence of events. *)
Fixpoint count_settled (evs : list Preview.Event) : nat :=
  match evs with
  | [] => 0
  | Preview.LaunchSettled :: evs' => S (count_settled evs')
  | _ :: evs' => count_settled evs'
  end.

(** ** [pages/Upload.tsx]: the whole form *)

Module UploadPage.

Import JSDate.

Inductive InputMode : Type := file_mode | text_mode.

(** The form: the date part is the [Upload.State] above; [file] is the
    name of the dropped file, if any. *)
Record Form := {
  inputMode : InputMode;
  file : option string;
  text : string;
  core : Upload.State
}.

Section Page.

(** [String.prototype.trim], left abstract. *)
Variable trim : string -> string.

Definition hasInput (f : Form) : bool :=
  match inputMode f with
  | file_mode =>
      bool_decide (is_Some (file f))
      || bool_decide (Upload.uploadId (core f) <> "")
  | text_mode => (10 <? String.length (trim (text f)))%nat
  end.

Definition hasDates (f : Form) : bool :=
  match Upload.dateMode (core f) with
  | Upload.range =>
      bool_decide (Upload.dateFrom (core f) <> "")
      && bool_decide (Upload.dateTo (core f) <> "")
  | Upload.calendar => (0 <? length (Upload.selectedDates (core f)))%nat
  end.

Definition canSubmit (f : Form) : bool := hasInput f && hasDates f.

(** How the server answers an upload or a generation request: a value,
    or an error whose message is the response's [detail]. *)
Inductive Reply (A : Type) : Type :=
  | Ok (value : A)
  | Failed (message : string).

(** What [handleGenerate] has done when it returns: the requests it
    sent, in order, the error it shows, and whether it went on to the
    preview page. *)
Record Outcome := {
  requests : list Api.Request;
  error : option string;
  navigated : bool
}.

Definition shown_error (message : string) : string :=
  if decide (message = "") then "Generation failed" else message.

(** [handleGenerate]: [upload_reply] answers the upload request, if one
    is sent, and [preview_reply] the generation request. *)
Definition handleGenerate (ls : Credentials.item) (tz : Zone) (f : Form)
    (upload_reply : Reply string) (preview_reply : Reply unit) : Outcome :=
  if negb (canSubmit f)
  then {| requests := []; error := None; navigated := false |}
  else
    let uploadId := Upload.uploadId (core f) in
    let generate sent finalUploadId :=
      let req :=
        Api.generatePreview ls finalUploadId (Upload.dateRange tz (core f))
          (Upload.skipWeekends (core f)) (Upload.skipHolidays (core f)) in
      match preview_reply with
      | Ok _ _ => {| requests := sent ++ [req]; error := None; navigated := true |}
      | Failed _ m =>
          {| requests := sent ++ [req]; error := Some (shown_error m);
             navigated := false |}
      end in
    let after_upload up :=
      match upload_reply with
      | Ok _ id => generate [up] id
      | Failed _ m =>
          {| requests := [up]; error := Some (shown_error m);
             navigated := false |}
      end in
    match inputMode f, file f with
    | file_mode, Some fl =>
        if decide (uploadId = "") then after_upload (Api.uploadFile ls fl)
        else generate [] uploadId
    | file_mode, None => generate [] uploadId
    | text_mode, _ => after_upload (Api.uploadText ls (text f))
    end.

End Page.

(** The form state kept in [localStorage] under [upload_form_state];
    a field may be missing from an object written by another version. *)
Record Saved := {
  s_text : option string;
  s_uploadId : option string;
  s_dateFrom : option string;
  s_dateTo : option string;
  s_selectedDates : option (list Date);
  s_inputMode : option InputMode;
  s_dateMode : option Upload.DateMode;
  s_skipWeekends : option bool;
  s_skipHolidays : option bool
}.

Definition no_saved : Saved :=
  {| s_text := None; s_uploadId := None; s_dateFrom := None; s_dateTo := None;
     s_selectedDates := None; s_inputMode := None; s_dateMode := None;
     s_skipWeekends := None; s_skipHolidays := None |}.

(** What the storage holds under the key, as for the credentials. *)
Inductive stored : Type :=
  | NoItem
  | Item (s : Saved)
  | Garbage.

(** [getSavedState]. *)
Definition getSavedState (ls : stored) : Saved :=
  match ls with
  | Item s => s
  | NoItem | Garbage => no_saved
  end.

(** The effect that saves the form after every change; the dates go
    through [toISOString] and back through [new Date], which keeps
    their time values. *)
Definition save (f : Form) : stored :=
  Item {| s_text := Some (text f);
          s_uploadId := Some (Upload.uploadId (core f));
          s_dateFrom := Some (Upload.dateFrom (core f));
          s_dateTo := Some (Upload.dateTo (core f));
          s_selectedDates := Some (Upload.selectedDates (core f));
          s_inputMode := Some (inputMode f);
          s_dateMode := Some (Upload.dateMode (core f));
          s_skipWeekends := Some (Upload.skipWeekends (core f));
          s_skipHolidays := Some (Upload.skipHolidays (core f)) |}.

(** The initial state of the page; [now] is [new Date()]. *)
Definition init (ls : stored) (now : Date) : Form :=
  let saved := getSavedState ls in
  {| inputMode := default file_mode (s_inputMode saved);
     file := None;
     text := default "" (s_text saved);
     core :=
       {| Upload.dateMode := default Upload.calendar (s_dateMode saved);
          Upload.dateFrom := default "" (s_dateFrom saved);
          Upload.dateTo := default "" (s_dateTo saved);
          Upload.selectedDates :=
            Upload.initial_selectedDates (s_selectedDates saved) now;
          Upload.skipWeekends := default true (s_skipWeekends saved);
          Upload.skipHolidays := default true (s_skipHolidays saved);
          Upload.uploadId := default "" (s_uploadId saved) |} |}.

End UploadPage.

(** The generation requests among a list of requests. *)
Definition is_generate (r : Api.Request) : Prop :=
  Api.url r = "/api/generate-preview".

(** The [upload_id] field a form request carries. *)
Definition upload_id_of (r : Api.Request) : option string :=
  match Api.body r with
  | Api.FormData (("upload_id", Api.Text i) :: _) => Some i
  | _ => None
  end.

#[global] Instance WorkerStatus_eq_dec : EqDecision Api.WorkerStatus.
Proof. solve_decision. Defined.

(** The page after a series of successful polls, each with its
    response and its random draws. *)
Definition after_polls (ps : list (Api.ProgressData * (nat -> nat)))
  : Progress.State :=
  foldl (fun st p => Progress.poll st p.1 p.2) Progress.initial ps.

(** No line is empty and no line repeats the one before it. *)
Definition tidy (l : list string) : Prop :=
  forall i x, l !! i = Some x -> x <> "" /\ l !! S i <> Some x.

(** A worker card that shows work in progress. *)
Definition busy (b : Api.BrowserState) : Prop := Api.status b <> Api.idle.

(** The stylesheet class that goes with each icon. *)
Definition icon_class (i : PlausibilityGauge.IconKind) : string :=
  match i with
  | PlausibilityGauge.Skull => "gauge-danger"
  | PlausibilityGauge.AlertTriangle => "gauge-warning"
  | PlausibilityGauge.Shield => "gauge-safe"
  end.

(** The picker re-rendered with the dates it handed to [onSelect]. *)
Definition with_selected (ds : list JSDate.Date) (props : CalendarPicker.Props)
  : CalendarPicker.Props :=
  {| CalendarPicker.selected := ds;
     CalendarPicker.skipWeekends := CalendarPicker.skipWeekends props;
     CalendarPicker.skipHolidays := CalendarPicker.skipHolidays props |}.

(** The days a shift-click walks over: [start], then the next day each
    turn, for as long as [end_] is not passed. *)
Definition on_walk (tz : JSDate.Zone) (start end_ d : JSDate.Date) : Prop :=
  exists k : nat, d = Nat.iter k (JSDate.next_day tz) start /\ d <= end_.

(** The status column of the history table as it is rendered: the
    labels of the rows that pass the status filter and the search. *)
Definition status_column (toLowerCase : string -> string) (f : History.Filter)
    (search : string) (hs : list Api.HistoryEntry) : list string :=
  History.status_label <$> History.filtered toLowerCase f search hs.

(** How many cells of a column read Failed. *)
Definition count_failed (column : list string) : nat :=
  length (filter (fun label => label = "Failed") column).

(** * Properties of the embedded code *)

(** *** Order facts about binary64 comparison *)

Section FloatOrder.

(** Against a positive finite threshold, [>=] on a positive finite
    number is the lexicographic order on (exponent, mantissa). *)
Lemma ge_pos_finite m e mc ec :
  JS.ge (S754_finite false m e) (S754_finite false mc ec)
  = (ec <? e) || ((ec =? e) && (mc <=? m)%positive).
Proof.
  unfold JS.ge, SFleb, SFcompare.
  destruct (Z.compare_spec ec e) as [->|Hlt|Hgt].
  - rewrite Z.ltb_irrefl, Z.eqb_refl. simpl.
    rewrite Pos.leb_compare. fold (Pos.compare mc m).
    by destruct (mc ?= m)%positive.
  - apply Z.ltb_lt in Hlt as ->. done.
  - assert ((ec <? e) = false) as -> by lia.
    assert ((ec =? e) = false) as -> by lia. done.
Qed.

Lemma lt_pos_finite m e mc ec :
  JS.lt (S754_finite false m e) (S754_finite false mc ec)
  = negb (JS.ge (S754_finite false m e) (S754_finite false mc ec)).
Proof.
  unfold JS.lt, JS.ge, SFltb, SFleb, SFcompare.
  rewrite (Z.compare_antisym e ec).
  destruct (Z.compare_spec e ec) as [->|Hlt|Hgt]; simpl; try done.
  fold (Pos.compare mc m) (Pos.compare m mc).
  rewrite (Pos.compare_antisym m mc).
  by destruct (m ?= mc)%positive.
Qed.

End FloatOrder.

(** *** The label and the gauge colour follow the bands *)

Lemma band_label_inj b1 b2 : band_label b1 = band_label b2 -> b1 = b2.
Proof. by destruct b1, b2. Qed.

Lemma band_stroke_inj b1 b2 : band_stroke b1 = band_stroke b2 -> b1 = b2.
Proof. by destruct b1, b2. Qed.

Lemma getPlausibilityLevel_band s :
  Utils.label (Utils.getPlausibilityLevel s) = band_label (band_of s).
Proof.
  unfold Utils.getPlausibilityLevel, band_of.
  repeat (case (JS.ge s _); [reflexivity|]). reflexivity.
Qed.

Lemma getColor_band s :
  PlausibilityGauge.getColor s = band_stroke (band_of s).
Proof.
  unfold PlausibilityGauge.getColor, band_of.
  repeat (case (JS.ge s _); [reflexivity|]). reflexivity.
Qed.

(** The cut points as binary64 values. *)
Lemma decimal_95 : JS.decimal 95 100 = S754_finite false 8556839292003942 (-53).
Proof. vm_compute. reflexivity. Qed.
Lemma decimal_85 : JS.decimal 85 100 = S754_finite false 7656119366529843 (-53).
Proof. vm_compute. reflexivity. Qed.
Lemma decimal_70 : JS.decimal 70 100 = S754_finite false 6305039478318694 (-53).
Proof. vm_compute. reflexivity. Qed.
Lemma decimal_7 : JS.decimal 7 10 = S754_finite false 6305039478318694 (-53).
Proof. vm_compute. reflexivity. Qed.
Lemma decimal_50 : JS.decimal 50 100 = S754_finite false 4503599627370496 (-53).
Proof. vm_compute. reflexivity. Qed.
Lemma decimal_5 : JS.decimal 5 10 = S754_finite false 4503599627370496 (-53).
Proof. vm_compute. reflexivity. Qed.

(** Two bounds on a mantissa that cross each other. *)
Ltac crossing_bounds m :=
  rewrite ?Pos.leb_le, ?Pos.leb_gt in *;
  match goal with
  | Hle : (?a <= m)%positive, Hlt : (m < ?b)%positive |- _ =>
      pose proof (Pos.le_lt_trans _ _ _ Hle Hlt) as Hc;
      vm_compute in Hc; discriminate Hc
  end.

Lemma in_band_iff_band_of s :
  unit_score s -> forall b, in_band b s = true <-> band_of s = b.
Proof.
  intros [H0 H1] b. destruct s as [sg|sg| |sg m e].
  - (* a zero lies below every cut point *)
    destruct sg, b; vm_compute; split; congruence.
  - destruct sg; vm_compute in H1, H0; congruence.
  - vm_compute in H0; congruence.
  - destruct sg; [vm_compute in H0; congruence|].
    clear H0 H1. unfold in_band, band_of.
    rewrite ?decimal_95, ?decimal_85, ?decimal_70, ?decimal_7, ?decimal_50, ?decimal_5.
    rewrite !lt_pos_finite, !ge_pos_finite.
    destruct (Z.ltb_spec (-53) e), (Z.eqb_spec (-53) e); try lia;
      cbn [andb orb negb];
      [destruct b; split; congruence| |destruct b; split; congruence].
    destruct (8556839292003942 <=? m)%positive eqn:E95,
             (7656119366529843 <=? m)%positive eqn:E85,
             (6305039478318694 <=? m)%positive eqn:E70,
             (4503599627370496 <=? m)%positive eqn:E50;
      cbn [andb orb negb]; destruct b; split; intros Hb;
      first [ reflexivity | discriminate Hb
            | exfalso; clear Hb; crossing_bounds m ].
Qed.

(** C1. For every score between 0 and 1 the label returned by
    [getPlausibilityLevel] and the stroke colour chosen by the gauge's
    [getColor] are those of exactly one band, the band whose inclusive
    lower cut point (0.95, 0.85, 0.70, 0.50) the score reaches while
    staying strictly below the next one; below 0.50 it is the rejected
    band. *)
Theorem plausibility_bands (s : JS.number) (Hs : unit_score s) :
  forall b : band,
    (in_band b s = true <->
       Utils.label (Utils.getPlausibilityLevel s) = band_label b)
    /\ (in_band b s = true <->
          PlausibilityGauge.getColor s = band_stroke b).
Proof.
  intros b. rewrite getPlausibilityLevel_band, getColor_band.
  pose proof (in_band_iff_band_of s Hs b) as Hb. split.
  - rewrite Hb. split; [congruence | apply band_label_inj].
  - rewrite Hb. split; [congruence | apply band_stroke_inj].
Qed.

Lemma plausibility_bands_witness :
  unit_score (JS.decimal 95 100)
  /\ Utils.label (Utils.getPlausibilityLevel (JS.decimal 95 100)) = "TERRIFYING"
  /\ PlausibilityGauge.getColor (JS.decimal 95 100) = "#ef4444".
Proof.
  assert (Hs : unit_score (JS.decimal 95 100)) by (split; reflexivity).
  split; [exact Hs|].
  destruct (plausibility_bands _ Hs SuspiciouslyPerfect) as [[Hl _] [Hc _]].
  split; [apply Hl | apply Hc]; reflexivity.
Defined.

(** *** Credentials: headers and storage *)

Section CredentialFacts.

Import Credentials.

Lemma lookup_set_if_truthy_ne c field name h k :
  k <> name -> set_if_truthy c field name h !! k = h !! k.
Proof.
  intros Hne. unfold set_if_truthy.
  destruct (c !! field) as [v|]; [|done].
  case_decide; [done|]. by rewrite lookup_insert_ne.
Qed.

Lemma lookup_set_if_truthy_eq c field name h :
  set_if_truthy c field name h !! name =
    match c !! field with
    | Some v => if decide (v = "") then h !! name else Some v
    | None => h !! name
    end.
Proof.
  unfold set_if_truthy. destruct (c !! field) as [v|]; [|done].
  case_decide; [done|]. by rewrite lookup_insert_eq.
Qed.

Ltac header_lookup :=
  unfold credentialHeaders; cbv zeta;
  repeat (rewrite lookup_set_if_truthy_ne by done);
  rewrite ?lookup_set_if_truthy_eq;
  repeat (rewrite lookup_set_if_truthy_ne by done);
  rewrite ?lookup_empty.

Lemma credentialHeaders_capability ls field name v :
  (field, name) ∈ capability_headers ->
  credentialHeaders ls !! name = Some v
  <-> getCredentials ls !! field = Some v /\ v <> "".
Proof.
  intros Hin. unfold capability_headers in Hin.
  repeat (apply elem_of_cons in Hin as [[= -> ->]|Hin]);
    [..|by apply elem_of_nil in Hin];
    header_lookup;
    (destruct (getCredentials ls !! _) as [w|]; [|naive_solver]);
    case_decide; naive_solver.
Qed.

Lemma credentialHeaders_other ls name :
  name ∉ capability_headers.*2 -> credentialHeaders ls !! name = None.
Proof.
  intros Hnot. unfold capability_headers in Hnot. cbn in Hnot.
  unfold credentialHeaders; cbv zeta.
  repeat (rewrite lookup_set_if_truthy_ne by set_solver).
  apply lookup_empty.
Qed.

Lemma foldl_drop_if_empty_lookup ks (m : gmap string string) k :
  foldl drop_if_empty m ks !! k =
    if decide (k ∈ ks /\ m !! k = Some "") then None else m !! k.
Proof.
  revert m. induction ks as [|x ks IH]; intros m; cbn [foldl].
  - rewrite decide_False; [done|]. intros [Hin _]. by apply elem_of_nil in Hin.
  - rewrite IH. unfold drop_if_empty.
    destruct (decide (m !! x = Some "")) as [Hx|Hx].
    + destruct (decide (k = x)) as [->|Hne].
      * rewrite lookup_delete_eq.
        rewrite (decide_False (P := x ∈ ks /\ _)) by (by intros [_ ?]).
        rewrite decide_True; [done|]. split; [left|done].
      * rewrite lookup_delete_ne by done.
        apply decide_ext. rewrite elem_of_cons. naive_solver.
    + apply decide_ext. rewrite elem_of_cons. naive_solver.
Qed.

Lemma elem_of_keys (o : gmap string string) k v :
  o !! k = Some v -> k ∈ keys o.
Proof.
  intros Hk. unfold keys. apply list_elem_of_fmap.
  exists (k, v). split; [done|]. by apply elem_of_map_to_list.
Qed.

Lemma saveCredentials_lookup creds ls k :
  getCredentials (saveCredentials creds ls) !! k =
    match (creds ∪ getCredentials ls) !! k with
    | Some v => if decide (v = "") then None else Some v
    | None => None
    end.
Proof.
  unfold saveCredentials; cbn [getCredentials].
  rewrite foldl_drop_if_empty_lookup.
  destruct ((creds ∪ getCredentials ls) !! k) as [v|] eqn:Hk.
  - destruct (decide (v = "")) as [->|Hv].
    + rewrite decide_True; [done|]. split; [|done]. by eapply elem_of_keys.
    + rewrite decide_False; [done|]. intros [_ [=]]. done.
  - by case_decide.
Qed.

End CredentialFacts.

(** C2. For every stored credential set, [credentialHeaders] carries the
    override header of a capability exactly when that credential is
    stored and is not the empty string, and carries no other header;
    every request of the API module is built by [authFetch], whose
    headers hold each credential header and, under any other name,
    what the caller supplied: the credential value wins over a
    caller-supplied header of the same name. *)
Theorem credential_headers_override (ls : Credentials.item) :
  (forall field name v, (field, name) ∈ capability_headers ->
     Credentials.credentialHeaders ls !! name = Some v
     <-> Credentials.getCredentials ls !! field = Some v /\ v <> "")
  /\ (forall name, name ∉ capability_headers.*2 ->
        Credentials.credentialHeaders ls !! name = None)
  /\ (forall call, exists u opts, Api.request_of ls call = Api.authFetch ls u opts)
  /\ (forall u opts name,
        Api.headers (Api.authFetch ls u opts) !! name =
          match Credentials.credentialHeaders ls !! name with
          | Some v => Some v
          | None => default ∅ (Api.init_headers opts) !! name
          end).
Proof.
  split; [|split; [|split]].
  - intros field name v. apply credentialHeaders_capability.
  - apply credentialHeaders_other.
  - intros []; eexists _, _; reflexivity.
  - intros u opts name. cbn. rewrite lookup_union.
    destruct (Credentials.credentialHeaders ls !! name);
      destruct (default ∅ (Api.init_headers opts) !! name); done.
Qed.

Lemma credential_headers_override_witness :
  let ls := Credentials.Object {[ "groq_api_key" := "gsk"; "vtu_username" := "" ]} in
  Credentials.credentialHeaders ls !! "X-Groq-Key" = Some "gsk"
  /\ Credentials.credentialHeaders ls !! "X-Portal-User" = None
  /\ Credentials.credentialHeaders ls !! "Content-Type" = None.
Proof.
  intros ls.
  destruct (credential_headers_override ls) as (Hcap & Hother & _ & _).
  split; [|split].
  - apply (Hcap "groq_api_key"); [set_solver|]. split; [|done].
    by vm_compute.
  - destruct (Credentials.credentialHeaders ls !! "X-Portal-User") as [v|] eqn:E;
      [|done].
    apply (Hcap "vtu_username") in E as [E Hv]; [|set_solver].
    vm_compute in E. congruence.
  - apply Hother. cbn. set_solver.
Defined.

(** C9. For every stored item and every update, [saveCredentials]
    stores the merge of the existing and the updated credentials, the
    update winning field by field, with every empty-string field
    removed; hence no stored field is the empty string, and when the
    existing object has no empty field (as every object written by
    [saveCredentials] has) a field the update does not mention keeps
    its value. *)
Theorem saveCredentials_merge (ls : Credentials.item) (creds : gmap string string) :
  let stored := Credentials.getCredentials (Credentials.saveCredentials creds ls) in
  stored = filter (fun kv => kv.2 <> "") (creds ∪ Credentials.getCredentials ls)
  /\ no_empty_field stored
  /\ (no_empty_field (Credentials.getCredentials ls) ->
      forall k, creds !! k = None ->
        stored !! k = Credentials.getCredentials ls !! k).
Proof.
  cbv zeta. split; [|split].
  - apply map_eq. intros k. rewrite saveCredentials_lookup, map_lookup_filter.
    destruct ((creds ∪ Credentials.getCredentials ls) !! k) as [v|]; [|done].
    cbn. case_decide as Hv.
    + rewrite option_guard_False; [done|]. cbn. by intros ?.
    + by rewrite option_guard_True.
  - intros k. rewrite saveCredentials_lookup.
    destruct ((creds ∪ Credentials.getCredentials ls) !! k) as [v|]; [|done].
    case_decide; congruence.
  - intros Hok k Hk. rewrite saveCredentials_lookup, lookup_union_r by done.
    destruct (Credentials.getCredentials ls !! k) as [v|] eqn:E; [|done].
    case_decide as Hv; [|done]. subst v. by destruct (Hok k).
Qed.

Lemma saveCredentials_merge_witness :
  let ls := Credentials.Object {[ "groq_api_key" := "gsk"; "vtu_username" := "u1" ]} in
  let creds : gmap string string := {[ "vtu_username" := ""; "vtu_password" := "pw" ]} in
  let stored := Credentials.getCredentials (Credentials.saveCredentials creds ls) in
  no_empty_field (Credentials.getCredentials ls)
  /\ stored !! "groq_api_key" = Some "gsk"
  /\ stored !! "vtu_username" = None.
Proof.
  intros ls creds stored.
  assert (Hok : no_empty_field (Credentials.getCredentials ls)).
  { intros k Hk. subst ls. cbn [Credentials.getCredentials] in Hk.
    rewrite lookup_insert_Some, lookup_singleton_Some in Hk.
    destruct Hk as [[_ [=]]|[_ [_ [=]]]]. }
  destruct (saveCredentials_merge ls creds) as (Heq & _ & Hkeep).
  split; [exact Hok|]. split.
  - unfold stored. rewrite (Hkeep Hok "groq_api_key"); by vm_compute.
  - unfold stored. rewrite Heq. by vm_compute.
Defined.

(** *** Preview: the launch control and the submitted entries *)

Section PreviewFacts.

Import Preview.

Lemma ids_sim es1 es2 : Forall2 entry_sim es1 es2 -> ids es1 = ids es2.
Proof.
  unfold ids. induction 1 as [|e1 e2 es1 es2 [Hid _] _ IH]; [done|].
  cbn. by rewrite Hid, IH.
Qed.

Lemma updateEntry_sim u1 u2 es1 es2 :
  entry_sim u1 u2 -> Forall2 entry_sim es1 es2 ->
  Forall2 entry_sim
    ((fun e => if decide (Api.id e = Api.id u1) then u1 else e) <$> es1)
    ((fun e => if decide (Api.id e = Api.id u2) then u2 else e) <$> es2).
Proof.
  intros Hu. induction 1 as [|e1 e2 es1 es2 He _ IH]; cbn; constructor; [|done].
  destruct Hu as [Hidu Hu], He as [Hide He].
  rewrite <- Hidu, <- Hide.
  case_decide; [by split | by split].
Qed.

Lemma launch_rendered_sim s1 s2 :
  state_sim s1 s2 -> launch_rendered s1 = launch_rendered s2.
Proof. intros [Hd _]. unfold launch_rendered. by destruct Hd. Qed.

Lemma launch_disabled_sim s1 s2 :
  state_sim s1 s2 -> launch_disabled s1 = launch_disabled s2.
Proof.
  intros (_ & _ & Hsel & _ & Hl). unfold launch_disabled. by rewrite Hsel, Hl.
Qed.

Lemma setLaunching_sim b s1 s2 :
  state_sim s1 s2 -> state_sim (setLaunching b s1) (setLaunching b s2).
Proof. intros (Hd & He & Hsel & Hdry & Hl). repeat split; done. Qed.

Lemma handleLaunch_sim ls s1 s2 :
  state_sim s1 s2 ->
  state_sim (handleLaunch ls s1).1 (handleLaunch ls s2).1
  /\ (is_Some (handleLaunch ls s1).2 <-> is_Some (handleLaunch ls s2).2).
Proof.
  intros Hs. pose proof Hs as (Hd & He & Hsel & Hdry & Hl).
  unfold handleLaunch. rewrite Hsel.
  case_decide; [done|].
  destruct (data s1) as [d1|], (data s2) as [d2|]; inversion Hd; subst; cbn.
  - split; [by apply setLaunching_sim | split; eauto].
  - split; [by apply setLaunching_sim | done].
Qed.

Lemma step_sim ls s1 s2 e1 e2 :
  state_sim s1 s2 -> event_sim e1 e2 ->
  state_sim (step ls s1 e1).1 (step ls s2 e2).1
  /\ (is_Some (step ls s1 e1).2 <-> is_Some (step ls s2 e2).2).
Proof.
  intros Hs Hev. pose proof Hs as (Hd & He & Hsel & Hdry & Hl).
  destruct Hev; cbn [step].
  - split; [|done]. unfold toggleEntry. rewrite Hsel. repeat split; done.
  - split; [|done]. unfold selectAll.
    rewrite Hsel, (Forall2_length _ _ _ He), (ids_sim _ _ He).
    case_decide; repeat split; done.
  - split; [|done]. repeat split; try done. cbn. by apply updateEntry_sim.
  - split; [|done]. repeat split; done.
  - split; [|done]. repeat split; done.
  - rewrite (launch_rendered_sim _ _ Hs), (launch_disabled_sim _ _ Hs).
    destruct (_ && _); [by apply handleLaunch_sim | done].
  - split; [|done]. repeat split; done.
Qed.

Lemma run_sim ls s1 s2 evs1 evs2 :
  state_sim s1 s2 -> Forall2 event_sim evs1 evs2 ->
  state_sim (run ls s1 evs1).1 (run ls s2 evs2).1
  /\ length (run ls s1 evs1).2 = length (run ls s2 evs2).2.
Proof.
  intros Hs Hevs. revert s1 s2 Hs.
  induction Hevs as [|e1 e2 evs1 evs2 Hev _ IH]; intros s1 s2 Hs; [done|].
  cbn [run].
  destruct (step_sim ls s1 s2 e1 e2 Hs Hev) as [Hs' Hr].
  destruct (step ls s1 e1) as [t1 r1], (step ls s2 e2) as [t2 r2].
  cbn [fst snd] in Hs', Hr.
  destruct (IH t1 t2 Hs') as [Hs'' Hlen].
  destruct (run ls t1 evs1) as [u1 q1], (run ls t2 evs2) as [u2 q2].
  cbn [fst snd] in *. split; [done|].
  destruct r1, r2; cbn; try lia.
  - destruct Hr as [Hr _]. by destruct Hr.
  - destruct Hr as [_ Hr]. by destruct Hr.
Qed.

Lemma mount_sim d1 d2 :
  preview_sim d1 d2 -> state_sim (mount (Some d1)) (mount (Some d2)).
Proof.
  intros Hd. pose proof Hd as (_ & He & _). cbn.
  repeat split; try done; [by constructor | by apply ids_sim].
Qed.

Lemma launch_disabled_iff st :
  launch_disabled st = true <-> selected st = ∅ \/ launching st = true.
Proof.
  unfold launch_disabled.
  rewrite orb_true_iff, bool_decide_eq_true, size_empty_iff.
  by unfold_leibniz.
Qed.

End PreviewFacts.

(** C3. For any two generation results that differ only in plausibility
    values (the report and the entries' own plausibility fields), and
    any two runs of the preview page over the same user actions, the
    launch button is rendered and disabled in the one exactly as in the
    other, a launch sends a request in the one exactly when it does in
    the other, and as many requests have been sent; the button is
    disabled only when the selection is empty or a launch is in
    flight. *)
Theorem plausibility_never_blocks (ls : Credentials.item)
    (d1 d2 : Api.PreviewResponse) (evs1 evs2 : list Preview.Event)
    (Hd : preview_sim d1 d2) (Hevs : Forall2 event_sim evs1 evs2) :
  let r1 := Preview.run ls (Preview.mount (Some d1)) evs1 in
  let r2 := Preview.run ls (Preview.mount (Some d2)) evs2 in
  Preview.launch_rendered r1.1 = Preview.launch_rendered r2.1
  /\ Preview.launch_disabled r1.1 = Preview.launch_disabled r2.1
  /\ (is_Some (Preview.handleLaunch ls r1.1).2
      <-> is_Some (Preview.handleLaunch ls r2.1).2)
  /\ length r1.2 = length r2.2
  /\ (Preview.launch_disabled r1.1 = true
      <-> Preview.selected r1.1 = ∅ \/ Preview.launching r1.1 = true).
Proof.
  cbv zeta.
  destruct (run_sim ls _ _ evs1 evs2 (mount_sim d1 d2 Hd) Hevs) as [Hs Hlen].
  split; [by apply launch_rendered_sim|].
  split; [by apply launch_disabled_sim|].
  split; [by apply handleLaunch_sim|].
  split; [done|]. apply launch_disabled_iff.
Qed.

Lemma plausibility_never_blocks_witness :
  preview_sim Sample.good Sample.poor
  /\ Preview.launch_disabled
       (Preview.run Credentials.Absent (Preview.mount (Some Sample.good))
          Sample.clicks).1
     = Preview.launch_disabled
         (Preview.run Credentials.Absent (Preview.mount (Some Sample.poor))
            Sample.clicks).1.
Proof.
  assert (Hd : preview_sim Sample.good Sample.poor).
  { repeat split; try reflexivity.
    repeat constructor. }
  assert (Hevs : Forall2 event_sim Sample.clicks Sample.clicks).
  { repeat constructor. }
  split; [exact Hd|].
  exact (proj1 (proj2
    (plausibility_never_blocks Credentials.Absent _ _ _ _ Hd Hevs))).
Defined.

(** *** Preview: what a launch submits *)

Section LaunchFacts.

Import Preview.





Lemma run_app ls st pre post :
  (run ls st (pre ++ post)).1 = (run ls (run ls st pre).1 post).1.
Proof.
  revert st. induction pre as [|ev pre IH]; intros st; [done|].
  cbn [run app]. destruct (step ls st ev) as [st1 r]. specialize (IH st1).
  destruct (run ls st1 (pre ++ post)), (run ls st1 pre). done.
Qed.



End LaunchFacts.



(** *** History: the retry job *)

Section RetryFacts.

Import History.

Lemma failedEntries_failed_rows hs : failedEntries hs = failed_rows hs.
Proof.
  unfold failedEntries. induction hs as [|h hs IH]; [done|].
  cbn [failed_rows]. rewrite filter_cons, IH.
  destruct (String.eqb_spec (Api.h_status h) "failed");
    by case_decide.
Qed.

Lemma truthy_not_zero_or_NaN c : JS.truthy c = true <-> ~ zero_or_NaN c.
Proof.
  unfold zero_or_NaN. destruct c as [sg|sg| |sg m e]; cbn; split; try done.
  - intros H. destruct H. right. by exists sg.
  - by intros _ [?|[? ?]].
  - intros H. destruct H. by left.
  - by intros _ [?|[? ?]].
Qed.

Lemma toDiaryEntry_diary_form h : diary_form h (toDiaryEntry h).
Proof.
  unfold diary_form, toDiaryEntry, or_string, or_number; cbn.
  repeat split; try done.
  - by intros [-> | ->].
  - intros b -> Hb. by case_decide.
  - by intros ->.
  - intros l ->. by case_decide.
  - by intros ->.
  - intros c -> Hc. destruct (JS.truthy c) eqn:E; [|done].
    by apply truthy_not_zero_or_NaN in E.
  - intros c -> Hc. apply truthy_not_zero_or_NaN in Hc. by rewrite Hc.
Qed.

End RetryFacts.

(** C5 (as amended).  For every submission-history list with at least
    one row of status 'failed' (the retry button is rendered only
    then), the retry action posts a new, non-dry-run submission job
    whose entries are exactly the rows with status 'failed', in the
    order of the history, each in DiaryEntry form: the row's fields,
    with a missing or empty blockers text read as 'None', a missing
    links text as the empty string and a missing, zero or NaN
    confidence as 0.8, every other value kept; no row of another
    status, such as 'success', contributes an entry. *)
Theorem retry_only_failed (ls : Credentials.item) (now : Z)
    (hs : list Api.HistoryEntry)
    (Hfailed : exists h, h ∈ hs /\ Api.h_status h = "failed") :
  History.retry_available hs false = true
  /\ exists r ds,
      History.handleRetryFailed ls now hs = Some r
      /\ Api.url r = "/api/approve-and-submit"
      /\ Api.body r = Api.JsonSubmit ("retry-" +:+ pretty now) ds false
      /\ Forall2 diary_form (failed_rows hs) ds
      /\ failed_rows hs `sublist_of` hs
      /\ (forall h, h ∈ failed_rows hs <-> h ∈ hs /\ Api.h_status h = "failed")
      /\ (forall h, h ∈ hs -> Api.h_status h = "success" -> h ∉ failed_rows hs).
Proof.
  destruct Hfailed as (h0 & Hin & Hst).
  assert (Hmem : forall h, h ∈ failed_rows hs
                   <-> h ∈ hs /\ Api.h_status h = "failed").
  { intros h. rewrite <- failedEntries_failed_rows. unfold History.failedEntries.
    rewrite list_elem_of_filter. tauto. }
  assert (Hlen : (0 < length (History.failedEntries hs))%nat).
  { destruct (History.failedEntries hs) as [|x l] eqn:E; [|cbn; lia].
    exfalso. assert (Hh : h0 ∈ failed_rows hs) by (by apply Hmem).
    rewrite <- failedEntries_failed_rows, E in Hh. by apply elem_of_nil in Hh. }
  split.
  { unfold History.retry_available, History.totalFailed.
    rewrite andb_true_r. by apply bool_decide_eq_true. }
  exists (Api.approveAndSubmit ls ("retry-" +:+ pretty now)
            (History.toDiaryEntry <$> History.failedEntries hs) false),
         (History.toDiaryEntry <$> History.failedEntries hs).
  split.
  { unfold History.handleRetryFailed. case_decide; [lia|done]. }
  split; [done|]. split; [done|]. split.
  { rewrite failedEntries_failed_rows. apply Forall2_fmap_r, Forall_Forall2_diag.
    apply Forall_forall. intros h _. apply toDiaryEntry_diary_form. }
  split.
  { rewrite <- failedEntries_failed_rows. apply sublist_filter. }
  split; [exact Hmem|].
  intros h _ Hs Hh. apply Hmem in Hh as [_ Hf]. congruence.
Qed.

Lemma retry_only_failed_witness :
  exists r,
    History.handleRetryFailed Credentials.Absent 1705312800000 SampleHistory.rows
      = Some r
    /\ Api.body r =
         Api.JsonSubmit "retry-1705312800000"
           (History.toDiaryEntry <$>
              [ SampleHistory.row 2 "failed" None None;
                SampleHistory.row 3 "failed" (Some "VPN down")
                  (Some (JS.decimal 7 10)) ])
           false.
Proof.
  assert (Hf : exists h, h ∈ SampleHistory.rows /\ Api.h_status h = "failed").
  { exists (SampleHistory.row 2 "failed" None None). split; [|done].
    unfold SampleHistory.rows. set_solver. }
  destruct (retry_only_failed Credentials.Absent 1705312800000 _ Hf)
    as (_ & r & ds & Hr & _).
  exists r. split; [exact Hr|].
  vm_compute in Hr. injection Hr as <-. by vm_compute.
Defined.

(** C5, as the specification states it, fails: a failed row that has
    an empty blockers text and a confidence of zero, both present, is
    resubmitted with the blockers 'None' and the confidence 0.8. *)
Lemma retry_rewrites_present_values :
  (exists r d,
     History.handleRetryFailed Credentials.Absent 1705312800000
       [SampleHistory.blank_failed] = Some r
     /\ Api.body r = Api.JsonSubmit "retry-1705312800000" [d] false
     /\ Api.blockers d = "None"
     /\ Api.confidence d = JS.decimal 8 10
     /\ JS.decimal 8 10 <> JS.of_Z 0)
  /\ ~ retry_converts_as_specified.
Proof.
  split.
  - eexists _, _. split; [reflexivity|]. split; [by vm_compute|].
    split; [reflexivity|]. split; [reflexivity|]. by vm_compute.
  - intros Hclaim.
    destruct (Hclaim Credentials.Absent 1705312800000
                [SampleHistory.blank_failed] _ eq_refl)
      as (ds & Hbody & Hform).
    vm_compute in Hbody. injection Hbody as <-.
    apply Forall2_cons_1 in Hform as [Hd _].
    destruct Hd as (_ & _ & _ & _ & _ & _ & Hb & _).
    specialize (Hb "" eq_refl). by vm_compute in Hb.
Qed.

(** Without a failed row the retry handler returns before sending. *)
Lemma retry_nothing_failed ls now hs :
  (forall h, h ∈ hs -> Api.h_status h <> "failed") ->
  History.handleRetryFailed ls now hs = None.
Proof.
  intros Hno. unfold History.handleRetryFailed.
  case_decide as Hlen; [done|]. exfalso. apply Hlen.
  destruct (History.failedEntries hs) as [|h l] eqn:E; [done|].
  assert (Hin : h ∈ History.failedEntries hs) by (rewrite E; left).
  apply list_elem_of_filter in Hin as [Hf Hin]. by destruct (Hno h Hin).
Qed.

(** *** Calendar picker: sets of dates *)

Section SetFacts.

Lemma elem_of_JSSet_add x y s : y ∈ JSSet.add x s <-> y = x \/ y ∈ s.
Proof.
  unfold JSSet.add, JSSet.has. case_bool_decide as Hx.
  - split; [auto|]. intros [->|]; done.
  - rewrite elem_of_app, list_elem_of_singleton. tauto.
Qed.

Lemma elem_of_JSSet_delete x y s : y ∈ JSSet.delete x s <-> y <> x /\ y ∈ s.
Proof. unfold JSSet.delete. by rewrite list_elem_of_filter. Qed.

Lemma elem_of_foldl_add l acc y :
  y ∈ foldl (fun s x => JSSet.add x s) acc l <-> y ∈ acc \/ y ∈ l.
Proof.
  revert acc. induction l as [|x l IH]; intros acc; cbn [foldl].
  - rewrite elem_of_nil. tauto.
  - rewrite IH, elem_of_JSSet_add, elem_of_cons. tauto.
Qed.

Lemma elem_of_JSSet_of_list l y : y ∈ JSSet.of_list l <-> y ∈ l.
Proof.
  unfold JSSet.of_list. rewrite elem_of_foldl_add, elem_of_nil. tauto.
Qed.

Lemma NoDup_JSSet_add x s : NoDup s -> NoDup (JSSet.add x s).
Proof.
  intros Hs. unfold JSSet.add, JSSet.has. case_bool_decide as Hx; [done|].
  apply NoDup_app. split; [done|]. split; [|apply NoDup_singleton].
  intros y Hy ->%list_elem_of_singleton. done.
Qed.

Lemma NoDup_foldl_add l acc :
  NoDup acc -> NoDup (foldl (fun s x => JSSet.add x s) acc l).
Proof.
  revert acc. induction l as [|x l IH]; intros acc Hacc; [done|].
  cbn [foldl]. by apply IH, NoDup_JSSet_add.
Qed.

Lemma NoDup_JSSet_of_list l : NoDup (JSSet.of_list l).
Proof. apply NoDup_foldl_add, NoDup_nil_2. Qed.

Lemma NoDup_JSSet_delete x s : NoDup s -> NoDup (JSSet.delete x s).
Proof. apply NoDup_filter. Qed.

End SetFacts.

Section PickerFacts.

Import JSDate CalendarPicker.

(** A zone without clock changes steps by 24 hours. *)
Lemma next_day_fixed east d : next_day (fixed east) d = d + MS_PER_DAY.
Proof. unfold next_day, local_time, fixed. cbn. lia. Qed.

Lemma fixed_advances east : advances (fixed east).
Proof.
  intros d. rewrite next_day_fixed. unfold HALF_DAY, MS_PER_DAY. lia.
Qed.

Variable tz : Zone.

(** The loop runs to its exit test when given [range_fuel] turns. *)
Lemma range_loop_terminates fuel sw current end_ acc :
  advances tz ->
  (current <= end_ ->
     (Z.to_nat ((end_ - current) `div` HALF_DAY + 2) <= fuel)%nat) ->
  (1 <= fuel)%nat ->
  is_Some (range_loop tz fuel sw current end_ acc).
Proof.
  intros Hadv. revert current acc.
  induction fuel as [|fuel IH]; intros current acc Hfuel Hone; [lia|].
  cbn [range_loop]. destruct (Z.leb_spec current end_) as [Hc|Hc]; [|eauto].
  specialize (Hfuel Hc). specialize (Hadv current).
  assert (Hq : 0 <= (end_ - current) `div` HALF_DAY)
    by (apply Z.div_pos; unfold HALF_DAY; lia).
  apply IH; [|lia].
  intros Hn.
  assert (Hstep : (end_ - next_day tz current) `div` HALF_DAY
                  <= (end_ - current) `div` HALF_DAY - 1).
  { replace ((end_ - current) `div` HALF_DAY - 1)
      with (((end_ - current) + (-1) * HALF_DAY) `div` HALF_DAY)
      by (rewrite Z.div_add by done; lia).
    apply Z.div_le_mono; [done|lia]. }
  assert (0 <= (end_ - next_day tz current) `div` HALF_DAY)
    by (apply Z.div_pos; unfold HALF_DAY; lia).
  lia.
Qed.

(** Whatever the loop adds is not beyond the end of the range and,
    when weekends are skipped, is no weekend day. *)
Lemma range_loop_adds fuel sw current end_ acc res d :
  range_loop tz fuel sw current end_ acc = Some res ->
  d ∈ res ->
  d ∈ acc \/ (d <= end_ /\ (sw = true -> is_weekend tz d = false)).
Proof.
  revert current acc. induction fuel as [|fuel IH]; intros current acc Hres Hd;
    [done|].
  cbn [range_loop] in Hres.
  destruct (Z.leb_spec current end_) as [Hc|Hc]; [|left; congruence].
  destruct (IH _ _ Hres Hd) as [Hin|[Hrange Hwk]].
  - destruct (negb sw || _) eqn:Hkeep; [|by left].
    apply elem_of_JSSet_add in Hin as [->|Hin]; [|by left].
    right. split; [lia|]. intros ->. cbn in Hkeep. unfold is_weekend.
    apply andb_true_iff in Hkeep as [H0 H6].
    apply negb_true_iff in H0, H6. by rewrite H0, H6.
  - right. by split.
Qed.

Lemma range_loop_keeps fuel sw current end_ acc res d :
  range_loop tz fuel sw current end_ acc = Some res -> d ∈ acc -> d ∈ res.
Proof.
  revert current acc. induction fuel as [|fuel IH]; intros current acc Hres Hd;
    [done|].
  cbn [range_loop] in Hres.
  destruct (Z.leb_spec current end_) as [Hc|Hc]; [|congruence].
  apply (IH _ _ Hres). destruct (negb sw || _); [|done].
  apply elem_of_JSSet_add. by right.
Qed.

Lemma range_loop_NoDup fuel sw current end_ acc res :
  range_loop tz fuel sw current end_ acc = Some res -> NoDup acc -> NoDup res.
Proof.
  revert current acc. induction fuel as [|fuel IH]; intros current acc Hres Hacc;
    [done|].
  cbn [range_loop] in Hres.
  destruct (Z.leb_spec current end_) as [Hc|Hc]; [|congruence].
  apply (IH _ _ Hres). destruct (negb sw || _); [|done].
  by apply NoDup_JSSet_add.
Qed.

Lemma range_fuel_pos start end_ :
  start <= end_ -> (1 <= range_fuel start end_)%nat.
Proof.
  intros Hle. unfold range_fuel.
  assert (0 <= (end_ - start) `div` HALF_DAY)
    by (apply Z.div_pos; unfold HALF_DAY; lia).
  lia.
Qed.

Lemma handleDayClick_total props last day shiftKey :
  advances tz ->
  is_Some (handleDayClick tz props last day shiftKey).
Proof.
  intros Hadv. unfold handleDayClick. destruct (_ && _); [eauto|].
  destruct shiftKey, last as [lastTime|]; eauto.
  destruct (range_loop_terminates
              (range_fuel (lastTime `min` day) (lastTime `max` day))
              (skipWeekends props) (lastTime `min` day) (lastTime `max` day)
              (JSSet.of_list (JSSet.of_list (selected props))) Hadv)
    as [res ->]; [done | apply range_fuel_pos; lia | cbn; eauto].
Qed.

(** The dates handed to [onSelect] carry no time value twice. *)
Lemma handleDayClick_NoDup props last day shiftKey out ds :
  handleDayClick tz props last day shiftKey = Some out ->
  onSelect out = Some ds -> NoDup ds.
Proof.
  unfold handleDayClick. destruct (_ && _).
  { intros [= <-]. done. }
  destruct shiftKey, last as [lastTime|]; cbn.
  - destruct (range_loop _ _ _ _ _ _) as [res|] eqn:Hloop; [|done].
    cbn. intros [= <-] [= <-].
    eapply range_loop_NoDup; [done|]. apply NoDup_JSSet_of_list.
  - intros [= <-] [= <-]. unfold JSSet.to_list.
    destruct (JSSet.has _ _);
      [apply NoDup_JSSet_delete | apply NoDup_JSSet_add]; apply NoDup_JSSet_of_list.
  - intros [= <-] [= <-]. unfold JSSet.to_list.
    destruct (JSSet.has _ _);
      [apply NoDup_JSSet_delete | apply NoDup_JSSet_add]; apply NoDup_JSSet_of_list.
  - intros [= <-] [= <-]. unfold JSSet.to_list.
    destruct (JSSet.has _ _);
      [apply NoDup_JSSet_delete | apply NoDup_JSSet_add]; apply NoDup_JSSet_of_list.
Qed.

Lemma handleDayClick_new_dates props last day shiftKey out ds d :
  skipWeekends props = true ->
  handleDayClick tz props last day shiftKey = Some out ->
  onSelect out = Some ds -> d ∈ ds ->
  d ∈ selected props \/ is_weekend tz d = false.
Proof.
  intros Hsw. unfold handleDayClick. rewrite Hsw. cbn [andb].
  fold (is_weekend tz day). destruct (is_weekend tz day) eqn:Hday.
  { intros [= <-]. done. }
  assert (Htoggle : forall s, s = (if JSSet.has day (JSSet.of_list (selected props))
                       then JSSet.delete day (JSSet.of_list (selected props))
                       else JSSet.add day (JSSet.of_list (selected props))) ->
            d ∈ s -> d ∈ selected props \/ is_weekend tz d = false).
  { intros s -> Hd. destruct (JSSet.has _ _).
    - apply elem_of_JSSet_delete in Hd as [_ Hd].
      left. by apply elem_of_JSSet_of_list.
    - apply elem_of_JSSet_add in Hd as [->|Hd]; [by right|].
      left. by apply elem_of_JSSet_of_list. }
  destruct shiftKey, last as [lastTime|]; cbn.
  - destruct (range_loop _ _ _ _ _ _) as [res|] eqn:Hloop; [|done].
    cbn. intros [= <-] [= <-] Hd.
    destruct (range_loop_adds _ _ _ _ _ _ _ Hloop Hd) as [Hin|[_ Hwk]].
    + left.
      exact (proj1 (elem_of_JSSet_of_list _ _)
               (proj1 (elem_of_JSSet_of_list _ _) Hin)).
    + right. by apply Hwk.
  - intros [= <-] [= <-]. by apply Htoggle.
  - intros [= <-] [= <-]. by apply Htoggle.
  - intros [= <-] [= <-]. by apply Htoggle.
Qed.

End PickerFacts.

(** C6 (as amended).  With weekends skipped, a click on a Saturday or a
    Sunday calls nothing and changes nothing, and after any other click
    or shift-click range every selected date was selected before or is
    no weekend day, so a selection free of weekend days stays so.  The
    picker takes the holiday flag but never reads it: whatever its
    value, a click has the same outcome.  This holds in every time
    zone, with or without clock changes, in which a step to the next
    day moves on by at least half a day. *)
Theorem picker_skips_weekends_only (tz : JSDate.Zone)
    (Hadv : JSDate.advances tz) (props : CalendarPicker.Props)
    (last : option JSDate.Date) (day : JSDate.Date) (shiftKey : bool)
    (Hsw : CalendarPicker.skipWeekends props = true) :
  exists out,
    CalendarPicker.handleDayClick tz props last day shiftKey = Some out
    /\ (CalendarPicker.is_weekend tz day = true ->
          CalendarPicker.onSelect out = None
          /\ CalendarPicker.lastClicked out = last)
    /\ (forall ds d, CalendarPicker.onSelect out = Some ds -> d ∈ ds ->
          d ∈ CalendarPicker.selected props
          \/ CalendarPicker.is_weekend tz d = false)
    /\ (forall ds,
          CalendarPicker.onSelect out = Some ds ->
          Forall (fun d => CalendarPicker.is_weekend tz d = false)
            (CalendarPicker.selected props) ->
          Forall (fun d => CalendarPicker.is_weekend tz d = false) ds)
    /\ (forall h,
          CalendarPicker.handleDayClick tz (with_skipHolidays h props)
            last day shiftKey = Some out).
Proof.
  destruct (handleDayClick_total tz props last day shiftKey Hadv) as [out Hout].
  exists out. split; [done|].
  assert (Hnew := fun ds d =>
            handleDayClick_new_dates tz props last day shiftKey out ds d Hsw Hout).
  split; [|split; [done|split; [|done]]].
  - intros Hwk. unfold CalendarPicker.handleDayClick in Hout.
    rewrite Hsw in Hout. cbn [andb] in Hout.
    fold (CalendarPicker.is_weekend tz day) in Hout. rewrite Hwk in Hout.
    by injection Hout as <-.
  - intros ds Hds Hall. apply Forall_forall. intros d Hd.
    destruct (Hnew ds d Hds Hd) as [Hin|]; [|done].
    by eapply Forall_forall in Hall.
Qed.

Lemma picker_skips_weekends_only_witness :
  let props := {| CalendarPicker.selected := [SampleDates.mon15];
                  CalendarPicker.skipWeekends := true;
                  CalendarPicker.skipHolidays := true |} in
  exists out,
    CalendarPicker.handleDayClick SampleDates.IST props (Some SampleDates.mon15)
      SampleDates.sat20 true = Some out
    /\ CalendarPicker.onSelect out = None.
Proof.
  intros props.
  destruct (picker_skips_weekends_only SampleDates.IST
              (fixed_advances 19800000) props
              (Some SampleDates.mon15) SampleDates.sat20 true eq_refl)
    as (out & Hout & Hwk & _).
  exists out. split; [exact Hout|]. apply Hwk. reflexivity.
Defined.

(** C6, as the specification states it, fails: with holidays skipped, a
    click on a holiday (here 26 January 2024, a Friday) selects it. *)
Lemma picker_selects_holiday :
  CalendarPicker.handleDayClick SampleDates.IST
    {| CalendarPicker.selected := [];
       CalendarPicker.skipWeekends := true;
       CalendarPicker.skipHolidays := true |}
    None SampleDates.fri26 false
  = Some {| CalendarPicker.onSelect := Some [SampleDates.fri26];
            CalendarPicker.lastClicked := Some SampleDates.fri26 |}
  /\ ~ picker_excludes_skipped_dates.
Proof.
  split; [reflexivity|]. intros Hclaim.
  destruct (Hclaim SampleDates.IST (fun d => d =? SampleDates.fri26)
              {| CalendarPicker.selected := [];
                 CalendarPicker.skipWeekends := true;
                 CalendarPicker.skipHolidays := true |}
              None SampleDates.fri26 false _ [SampleDates.fri26]
              SampleDates.fri26 eq_refl eq_refl) as [_ Hhol].
  - left.
  - apply not_elem_of_nil.
  - specialize (Hhol eq_refl). by rewrite Z.eqb_refl in Hhol.
Qed.

(** *** Upload: the date range of a generation request *)

Section DateRangeFacts.

Import JSDate Upload.

(** In range mode the request names the interval as 'from to to'. *)
Lemma dateRange_range_mode tz st :
  dateMode st = range -> dateRange tz st = dateFrom st +:+ " to " +:+ dateTo st.
Proof. unfold dateRange. by intros ->. Qed.

(** In calendar mode the request lists the selected dates by ascending
    time value, each as yyyy-MM-dd, separated by commas. *)
Lemma dateRange_calendar_mode tz st :
  dateMode st = calendar ->
  exists sorted,
    dateRange tz st = join "," (format_yyyy_MM_dd tz <$> sorted)
    /\ Sorted Z.le sorted
    /\ sorted ≡ₚ selectedDates st.
Proof.
  intros Hmode. exists (sort_dates (selectedDates st)).
  unfold dateRange. rewrite Hmode. split; [done|]. split.
  - apply (Sorted_merge_sort Z.le).
  - apply merge_sort_Permutation.
Qed.

(** A click leaves a selection without repeated time values. *)
Lemma click_day_NoDup tz st last day shiftKey st' last' :
  NoDup (selectedDates st) ->
  click_day tz st last day shiftKey = Some (st', last') ->
  NoDup (selectedDates st').
Proof.
  intros Hnd. unfold click_day.
  destruct (CalendarPicker.handleDayClick _ _ _ _ _) as [out|] eqn:Hout; [|done].
  cbn. intros [= <- _].
  destruct (CalendarPicker.onSelect out) as [ds|] eqn:Hds; [|done].
  cbn. by eapply handleDayClick_NoDup.
Qed.

End DateRangeFacts.

(** C8 at its failing input.  On a first visit the selection is the
    current instant; a click on today's cell, whose time value is local
    midnight, adds a second date for the same day, and the calendar-mode
    request then names that day twice. *)
Theorem today_sent_twice :
  exists st last,
    Upload.click_day SampleDates.IST SampleUpload.first_visit None
      SampleDates.mon15 false = Some (st, last)
    /\ Upload.selectedDates st = [SampleDates.mon15_10am; SampleDates.mon15]
    /\ Upload.dateRange SampleDates.IST st = "2024-01-15,2024-01-15"
    /\ ~ NoDup (JSDate.format_yyyy_MM_dd SampleDates.IST
                  <$> Upload.sort_dates (Upload.selectedDates st)).
Proof.
  eexists _, _. split; [reflexivity|]. split; [reflexivity|].
  split; [by vm_compute|].
  intros Hnd. vm_compute in Hnd. apply NoDup_cons in Hnd as [Hnot _].
  apply Hnot. left.
Qed.

(** *** Binary64 arithmetic never invents a NaN *)

Section FloatTotality.

Lemma SFcompare_antisym x y :
  SFcompare y x = CompOpp <$> SFcompare x y.
Proof.
  destruct x as [sx|sx| |sx mx ex], y as [sy|sy| |sy my ey]; cbn;
    try done; try (by destruct sx); try (by destruct sy);
    try (by destruct sx, sy).
  destruct sx, sy; cbn; try done; f_equal.
  - rewrite (Z.compare_antisym ex ey).
    destruct (ex ?= ey); cbn; try done.
    by rewrite (Pos.compare_cont_antisym mx my Eq).
  - rewrite (Z.compare_antisym ex ey).
    destruct (ex ?= ey); cbn; try done.
    by rewrite (Pos.compare_cont_antisym mx my Eq).
Qed.

Lemma shr_1_nonneg mrs : 0 <= shr_m mrs -> 0 <= shr_m (shr_1 mrs).
Proof.
  destruct mrs as [m r s]. cbn. destruct m as [|[p|p|]|p]; cbn; lia.
Qed.

Lemma iter_pos_shr_1_nonneg p mrs :
  0 <= shr_m mrs -> 0 <= shr_m (SpecFloat.iter_pos shr_1 p mrs).
Proof.
  revert mrs. induction p as [p IH|p IH|]; intros mrs Hm; cbn.
  - by apply IH, IH, shr_1_nonneg.
  - by apply IH, IH.
  - by apply shr_1_nonneg.
Qed.

Lemma shr_fexp_nonneg m e l :
  0 <= m -> 0 <= shr_m (shr_fexp JS.prec JS.emax m e l).1.
Proof.
  intros Hm. unfold shr_fexp, shr.
  assert (H0 : 0 <= shr_m (shr_record_of_loc m l)) by (by destruct l as [|[]]).
  destruct (_ - e); cbn [fst]; [done| |done].
  by apply iter_pos_shr_1_nonneg.
Qed.

Lemma round_nearest_even_nonneg m l : 0 <= m -> 0 <= round_nearest_even m l.
Proof.
  intros Hm. destruct l as [|[]]; cbn; try lia. destruct (Z.even m); lia.
Qed.

Lemma binary_round_aux_not_nan sx mx ex lx :
  0 <= mx -> JS.isNaN (binary_round_aux JS.prec JS.emax sx mx ex lx) = false.
Proof.
  intros Hm. unfold binary_round_aux.
  pose proof (shr_fexp_nonneg mx ex lx Hm) as H1.
  destruct (shr_fexp JS.prec JS.emax mx ex lx) as [mrs' e'].
  cbn [fst] in H1.
  pose proof (shr_fexp_nonneg _ e' loc_Exact
                (round_nearest_even_nonneg _ (loc_of_shr_record mrs') H1)) as H2.
  destruct (shr_fexp JS.prec JS.emax _ e' loc_Exact) as [mrs'' e''].
  cbn [fst] in H2.
  destruct (shr_m mrs'') as [|m|m]; [done| |lia].
  by destruct (e'' <=? _).
Qed.

Lemma of_Z_not_nan z : JS.isNaN (JS.of_Z z) = false.
Proof.
  unfold JS.of_Z, binary_normalize, binary_round.
  destruct z as [|m|m]; [done| |];
    destruct (shl_align _ _ _) as [mz ez]; by apply binary_round_aux_not_nan.
Qed.

Lemma SFdiv_core_binary_nonneg mx ex my ey :
  0 <= (SFdiv_core_binary JS.prec JS.emax (Zpos mx) ex (Zpos my) ey).1.1.
Proof.
  unfold SFdiv_core_binary.
  set (s := _ - _ - _).
  set (m' := match s with Z0 => _ | Zpos _ => _ | Zneg _ => _ end).
  assert (Hm' : 0 <= m').
  { unfold m'. destruct s; [lia| |lia]. by apply Z.shiftl_nonneg. }
  pose proof (Z.div_pos m' (Zpos my) Hm' eq_refl) as Hq.
  unfold Z.div in Hq. by destruct (Z.div_eucl m' (Zpos my)).
Qed.

(** A finite number divided by a number that is neither zero nor NaN. *)
Lemma div_not_nan x y :
  JS.isFinite x = true -> JS.isNaN y = false -> JS.truthy y = true ->
  JS.isNaN (JS.div x y) = false.
Proof.
  destruct x as [sx|sx| |sx mx ex], y as [sy|sy| |sy my ey]; try done.
  intros _ _ _. unfold JS.div, SFdiv.
  pose proof (SFdiv_core_binary_nonneg mx ex my ey) as Hq.
  destruct (SFdiv_core_binary _ _ _ _ _ _) as [[mz ez] lz]. cbn in Hq.
  by apply binary_round_aux_not_nan.
Qed.

(** A product with a finite non-zero factor. *)
Lemma mul_not_nan x sy my ey :
  JS.isNaN x = false ->
  JS.isNaN (JS.mul x (S754_finite sy my ey)) = false.
Proof.
  destruct x as [sx|sx| |sx mx ex]; try done.
  intros _. unfold JS.mul, SFmul. by apply binary_round_aux_not_nan.
Qed.

Lemma Math_round_not_nan x :
  JS.isNaN x = false -> JS.isNaN (JS.Math_round x) = false.
Proof.
  destruct x as [sx|sx| |[] mx ex]; try done; intros _; cbn.
  - destruct (_ =? 0); [done|]. apply of_Z_not_nan.
  - apply of_Z_not_nan.
Qed.

Lemma of_Z_1 : JS.of_Z 1 = S754_finite false 4503599627370496 (-52).
Proof. vm_compute. reflexivity. Qed.

(** [Math.max(x, 1)] of a number is at least 1. *)
Lemma Math_max_one x :
  JS.isNaN x = false ->
  let d := JS.Math_max x (JS.of_Z 1) in
  JS.ge d (JS.of_Z 1) = true /\ JS.isNaN d = false /\ JS.truthy d = true.
Proof.
  intros Hx. cbv zeta. rewrite of_Z_1. unfold JS.Math_max, JS.ge, SFleb.
  set (one := S754_finite false 4503599627370496 (-52)).
  pose proof (SFcompare_antisym x one) as Hanti.
  destruct (SFcompare x one) as [[]|] eqn:Hc; cbn [fmap option_fmap option_map CompOpp] in Hanti.
  - destruct x as [[]|sx| |sx mx ex]; try done; by rewrite Hanti.
  - done.
  - rewrite Hanti. by destruct x as [sx|sx| |sx mx ex].
  - by destruct x.
Qed.

End FloatTotality.

(** *** Progress: the percentage *)

Lemma of_Z_100 : JS.of_Z 100 = S754_finite false 7036874417766400 (-46).
Proof. vm_compute. reflexivity. Qed.

(** C10 (as amended).  For every progress snapshot whose completed
    count is a finite double, the displayed percentage is [Math.round]
    of the double product [(completed / max(total, 1)) * 100], the
    quotient being rounded before it is multiplied; the divisor is at
    least 1, hence never zero, and the percentage is never NaN; it is 0
    when nothing is completed (in particular for an empty job) and when
    there is no snapshot yet. *)
Theorem pct_guarded (p : Api.ProgressData)
    (Hfin : JS.isFinite (JS.of_Z (Api.completed_count p)) = true) :
  let d := JS.Math_max (JS.of_Z (Api.total p)) (JS.of_Z 1) in
  Progress.pct (Some p)
  = JS.Math_round
      (JS.mul (JS.div (JS.of_Z (Api.completed_count p)) d) (JS.of_Z 100))
  /\ JS.ge d (JS.of_Z 1) = true
  /\ JS.truthy d = true
  /\ JS.isNaN (Progress.pct (Some p)) = false
  /\ (Api.completed_count p = 0 -> Progress.pct (Some p) = JS.of_Z 0)
  /\ Progress.pct None = JS.of_Z 0.
Proof.
  cbv zeta.
  destruct (Math_max_one (JS.of_Z (Api.total p)) (of_Z_not_nan _))
    as (Hge & Hnan & Hnz).
  split; [done|]. split; [done|]. split; [done|]. split; [|split; [|done]].
  - unfold Progress.pct. apply Math_round_not_nan.
    rewrite of_Z_100. apply mul_not_nan. by apply div_not_nan.
  - intros Hc. unfold Progress.pct. rewrite Hc.
    destruct (JS.Math_max (JS.of_Z (Api.total p)) (JS.of_Z 1))
      as [sd|sd| |sd md ed]; try done.
    + destruct sd; [|done]. rewrite of_Z_1 in Hge. done.
    + destruct sd; [|done]. rewrite of_Z_1 in Hge. done.
Qed.

Lemma pct_guarded_witness :
  JS.isFinite (JS.of_Z 3) = true
  /\ Progress.pct (Some (SamplePoll.snapshot 3 0 None)) = JS.of_Z 300
  /\ JS.isNaN (Progress.pct (Some (SamplePoll.snapshot 3 0 None))) = false.
Proof.
  split; [reflexivity|]. split; [by vm_compute|].
  exact (proj1 (proj2 (proj2 (proj2
    (pct_guarded (SamplePoll.snapshot 3 0 None) eq_refl))))).
Defined.

(** C10, as the specification states it, fails: with 23 of 40 entries
    completed the quotient 0.575 is rounded to a double just below it,
    the product is 57.49999999999999 and the page shows 57, while
    100 * 23 / 40 = 57.5 rounds to 58, also when it is computed in
    doubles in the order written there. *)
Lemma pct_23_of_40 :
  Progress.pct (Some (SamplePoll.snapshot 23 40 None)) = JS.of_Z 57
  /\ exact_pct 23 40 = 58
  /\ JS.Math_round
       (JS.div (JS.mul (JS.of_Z 100) (JS.of_Z 23))
               (JS.Math_max (JS.of_Z 40) (JS.of_Z 1))) = JS.of_Z 58
  /\ ~ pct_is_exact.
Proof.
  split; [by vm_compute|]. split; [reflexivity|]. split; [by vm_compute|].
  intros Hclaim. specialize (Hclaim (SamplePoll.snapshot 23 40 None)).
  vm_compute in Hclaim. discriminate Hclaim.
Qed.

(** *** Progress: the worker cards *)

Section WorkerCards.

Import Api Progress.

Lemma simulate_worker_id data r i b :
  worker_id (simulate data r i b) = worker_id b.
Proof. unfold simulate. by destruct (_ <=? _). Qed.

Lemma states_lookup_mod r :
  default idle (states !! (r `mod` length states)%nat) ∈ states.
Proof.
  cbn [length states].
  assert (Hlt : (r `mod` 3 < 3)%nat) by (apply Nat.mod_upper_bound; lia).
  destruct (r `mod` 3)%nat as [|[|[|n]]]; cbn; [set_solver..|lia].
Qed.

Lemma poll_worker_ids st data rnd :
  worker_id <$> browsers (poll st data rnd) = worker_id <$> browsers st.
Proof.
  unfold poll; cbn [browsers].
  destruct (job_status data); [| |done].
  - apply list_eq. intros i. rewrite !list_lookup_fmap, list_lookup_imap.
    destruct (browsers st !! i) as [b|]; [|done]. cbn.
    by rewrite simulate_worker_id.
  - rewrite <- list_fmap_compose. by apply list_fmap_ext.
Qed.

(** Polls keep the five workers the page starts with. *)
Lemma after_polls_worker_ids ps :
  worker_id <$> browsers (after_polls ps) = [0; 1; 2; 3; 4].
Proof.
  unfold after_polls. rewrite <- (reverse_involutive ps).
  induction (reverse ps) as [|[data rnd] l IH]; [done|].
  rewrite reverse_cons, foldl_app. cbn [foldl fst snd].
  by rewrite poll_worker_ids.
Qed.

Lemma after_polls_workers ps : length (browsers (after_polls ps)) = 5%nat.
Proof.
  rewrite <- (length_fmap worker_id), after_polls_worker_ids. done.
Qed.

End WorkerCards.




(** * Further properties of the embedded code *)

(** *** Credentials: masking, configuration checks, backup *)

Section MaskFacts.

Import Credentials.

Lemma length_append s1 s2 :
  String.length (s1 +:+ s2) = (String.length s1 + String.length s2)%nat.
Proof.
  induction s1 as [|a s1 IH]; [done|].
  change (String a s1 +:+ s2) with (String a (s1 +:+ s2)).
  cbn [String.length plus]. by rewrite IH.
Qed.

Lemma length_stars n : String.length (stars n) = n.
Proof.
  induction n as [|n IH]; [done|].
  cbn [stars]. rewrite length_append, IH. done.
Qed.

Lemma skip_split n s :
  (n <= String.length s)%nat ->
  exists hidden, s = hidden +:+ skip n s /\ String.length hidden = n.
Proof.
  revert s. induction n as [|n IH]; intros s Hn.
  - by exists "".
  - destruct s as [|a s]; cbn in Hn; [lia|].
    destruct (IH s) as (h & Hs & Hh); [lia|].
    exists (String a h). split; [|cbn; by f_equal].
    change (String a h +:+ skip (S n) (String a s))
      with (String a (h +:+ skip n s)). by f_equal.
Qed.

Lemma length_skip n s :
  String.length (skip n s) = (String.length s - n)%nat.
Proof.
  revert s. induction n as [|n IH]; intros s; [cbn; lia|].
  destruct s as [|a s]; cbn; [done|]. apply IH.
Qed.

End MaskFacts.

(** X1. [maskSecret] shows at most the last four characters: a missing
    or empty secret gives the empty string, a secret of one to four
    characters gives four stars whatever it is, and a longer secret
    gives a text of the same length made of stars followed by the
    secret's last four characters. *)
Theorem maskSecret_shows_last_four (v : string) :
  Credentials.maskSecret None = ""
  /\ (v = "" -> Credentials.maskSecret (Some v) = "")
  /\ (v <> "" -> (String.length v <= 4)%nat ->
        Credentials.maskSecret (Some v) = "****")
  /\ ((4 < String.length v)%nat ->
        exists hidden shown,
          v = hidden +:+ shown
          /\ String.length shown = 4%nat
          /\ Credentials.maskSecret (Some v)
             = Credentials.stars (String.length hidden) +:+ shown
          /\ String.length (Credentials.maskSecret (Some v)) = String.length v).
Proof.
  split; [done|]. split; [by intros ->|]. split.
  - intros Hv Hlen. unfold Credentials.maskSecret.
    rewrite decide_False by done.
    by destruct (Nat.leb_spec (String.length v) 4); [|lia].
  - intros Hlen. unfold Credentials.maskSecret.
    rewrite decide_False by (intros ->; cbn in Hlen; lia).
    destruct (Nat.leb_spec (String.length v) 4); [lia|].
    unfold Credentials.slice_last.
    destruct (skip_split (String.length v - 4) v) as (hidden & Hv & Hh); [lia|].
    exists hidden, (Credentials.skip (String.length v - 4) v).
    split; [done|]. rewrite length_skip, Hh.
    split; [lia|]. split; [done|].
    rewrite length_append, length_stars, length_skip. lia.
Qed.

Lemma maskSecret_shows_last_four_witness :
  Credentials.maskSecret (Some "gsk_live_12345678") = "*************5678"
  /\ Credentials.maskSecret (Some "abc") = "****".
Proof.
  destruct (maskSecret_shows_last_four "abc") as (_ & _ & Hshort & _).
  split; [reflexivity|]. apply Hshort; [done | cbn; lia].
Defined.

Section ConfiguredFacts.

Import Credentials.

Lemma truthy_field_spec c field :
  truthy_field c field = true <-> exists v, c !! field = Some v /\ v <> "".
Proof.
  unfold truthy_field. destruct (c !! field) as [v|].
  - rewrite bool_decide_eq_true. naive_solver.
  - naive_solver.
Qed.

Lemma header_present_iff ls field name :
  (field, name) ∈ capability_headers ->
  is_Some (credentialHeaders ls !! name)
  <-> truthy_field (getCredentials ls) field = true.
Proof.
  intros Hin. rewrite truthy_field_spec. split.
  - intros [v Hv]. exists v. by apply (credentialHeaders_capability ls field name v).
  - intros (v & Hv & Hne). exists v.
    by apply (credentialHeaders_capability ls field name v).
Qed.

End ConfiguredFacts.

(** Membership in a list given in full. *)
Ltac in_list :=
  repeat first [apply list_elem_of_here | apply list_elem_of_further].

(** X2. [isConfigured] (and [hasAnyLLMKey]) holds exactly when the
    requests carry at least one language-model key header, so a stored
    provider name alone does not count; [hasPortalCreds] holds exactly
    when both portal headers are sent. *)
Theorem configured_iff_key_header (ls : Credentials.item) :
  (Credentials.isConfigured ls = true
   <-> exists name, name ∈ llm_key_headers
         /\ is_Some (Credentials.credentialHeaders ls !! name))
  /\ (Credentials.hasPortalCreds ls = true
      <-> is_Some (Credentials.credentialHeaders ls !! "X-Portal-User")
          /\ is_Some (Credentials.credentialHeaders ls !! "X-Portal-Pass")).
Proof.
  assert (Hcap : forall f n, (f, n) ∈ capability_headers ->
            is_Some (Credentials.credentialHeaders ls !! n)
            <-> Credentials.truthy_field (Credentials.getCredentials ls) f = true)
    by (intros f n; apply header_present_iff).
  pose proof (Hcap "groq_api_key" "X-Groq-Key" ltac:(in_list)) as Hg.
  pose proof (Hcap "gemini_api_key" "X-Gemini-Key" ltac:(in_list)) as Hm.
  pose proof (Hcap "cerebras_api_key" "X-Cerebras-Key" ltac:(in_list)) as Hc.
  pose proof (Hcap "openai_api_key" "X-Openai-Key" ltac:(in_list)) as Ho.
  pose proof (Hcap "vtu_username" "X-Portal-User" ltac:(in_list)) as Hu.
  pose proof (Hcap "vtu_password" "X-Portal-Pass" ltac:(in_list)) as Hp.
  split.
  - unfold Credentials.isConfigured, Credentials.hasAnyLLMKey. cbv zeta.
    rewrite !orb_true_iff, <- Hg, <- Hm, <- Hc, <- Ho. unfold llm_key_headers.
    split.
    + intros [[[H|H]|H]|H]; eexists; (split; [|exact H]); set_solver.
    + intros (name & Hin & H).
      repeat (apply elem_of_cons in Hin as [->|Hin]); [tauto..|].
      by apply elem_of_nil in Hin.
  - unfold Credentials.hasPortalCreds. cbv zeta.
    by rewrite andb_true_iff, <- Hu, <- Hp.
Qed.

(** X3. What [saveCredentials] does with each field of the saved form:
    a non-empty value is stored and read back as it is, and its header
    is sent from then on; an empty string removes the field, also one
    that was stored before, and its header is no longer sent. *)
Theorem save_sets_or_erases (ls : Credentials.item)
    (form : gmap string string) (k v : string) (Hk : form !! k = Some v) :
  let ls' := Credentials.saveCredentials form ls in
  (v <> "" ->
     Credentials.getCredentials ls' !! k = Some v
     /\ forall name, (k, name) ∈ capability_headers ->
          Credentials.credentialHeaders ls' !! name = Some v)
  /\ (v = "" ->
        Credentials.getCredentials ls' !! k = None
        /\ forall name, (k, name) ∈ capability_headers ->
             Credentials.credentialHeaders ls' !! name = None).
Proof.
  cbv zeta.
  assert (Hst : Credentials.getCredentials (Credentials.saveCredentials form ls) !! k
                = if decide (v = "") then None else Some v).
  { rewrite saveCredentials_lookup.
    by rewrite (lookup_union_Some_l _ _ _ _ Hk). }
  split.
  - intros Hv. rewrite decide_False in Hst by done. split; [done|].
    intros name Hin. by apply (credentialHeaders_capability _ k name v).
  - intros Hv. rewrite decide_True in Hst by done. split; [done|].
    intros name Hin.
    destruct (Credentials.credentialHeaders _ !! name) as [w|] eqn:E; [|done].
    apply (credentialHeaders_capability _ k name w Hin) in E as [E _].
    congruence.
Qed.

Lemma save_sets_or_erases_witness :
  let ls := Credentials.Object {[ "groq_api_key" := "gsk" ]} in
  let form : gmap string string := {[ "groq_api_key" := "" ]} in
  Credentials.credentialHeaders (Credentials.saveCredentials form ls)
    !! "X-Groq-Key" = None.
Proof.
  intros ls form.
  destruct (save_sets_or_erases ls form "groq_api_key" "" eq_refl) as [_ Herase].
  destruct (Herase eq_refl) as [_ Hhdr]. apply Hhdr. set_solver.
Defined.

(** X4. Saving the same form twice stores what saving it once stores. *)
Theorem saveCredentials_idempotent (ls : Credentials.item)
    (creds : gmap string string) :
  Credentials.saveCredentials creds (Credentials.saveCredentials creds ls)
  = Credentials.saveCredentials creds ls.
Proof.
  assert (Hobj : forall c l, Credentials.saveCredentials c l
                   = Credentials.Object
                       (Credentials.getCredentials (Credentials.saveCredentials c l)))
    by done.
  rewrite (Hobj creds (Credentials.saveCredentials creds ls)), (Hobj creds ls).
  f_equal. apply map_eq. intros k.
  rewrite (saveCredentials_lookup creds (Credentials.saveCredentials creds ls)).
  rewrite lookup_union, saveCredentials_lookup, lookup_union.
  destruct (creds !! k) as [v|]; cbn.
  - destruct (Credentials.getCredentials ls !! k) as [w|]; cbn;
      destruct (decide (v = "")); cbn;
      [rewrite decide_True by done | rewrite decide_False by done
      |rewrite decide_True by done | rewrite decide_False by done]; done.
  - destruct (Credentials.getCredentials ls !! k) as [w|]; cbn; [|done].
    destruct (decide (w = "")); cbn; [done|].
    by rewrite decide_False.
Qed.

(** X5. Backup and recovery.  Nothing is exported exactly when nothing
    is stored; otherwise the exported file holds exactly the stored
    credentials, and importing that file into a cleared browser (or one
    holding nothing) restores them and resolves with them.  A file that
    does not parse is rejected with 'Invalid credentials file' and one
    that cannot be read with 'Failed to read file'; either leaves the
    store as it was, and an import that is rejected never changes the
    store. *)
Theorem export_import_restores (ls : Credentials.item)
    (Hok : no_empty_field (Credentials.getCredentials ls)) :
  (Credentials.exportCredentials ls = None
   <-> Credentials.getCredentials ls = ∅)
  /\ (Credentials.getCredentials ls <> ∅ ->
        Credentials.exportCredentials ls = Some (Credentials.getCredentials ls)
        /\ Credentials.importCredentials
             (Credentials.JsonFile (Credentials.getCredentials ls))
             (Credentials.clearCredentials ls)
           = (Credentials.Object (Credentials.getCredentials ls),
              Credentials.Resolved (Credentials.getCredentials ls)))
  /\ Credentials.importCredentials Credentials.BadJson ls
     = (ls, Credentials.Rejected "Invalid credentials file")
  /\ Credentials.importCredentials Credentials.Unreadable ls
     = (ls, Credentials.Rejected "Failed to read file")
  /\ (forall file ls' message,
        Credentials.importCredentials file ls
        = (ls', Credentials.Rejected message) ->
        ls' = ls).
Proof.
  assert (Hkeys : length (Credentials.keys (Credentials.getCredentials ls)) = 0%nat
                  <-> Credentials.getCredentials ls = ∅).
  { split.
    - intros Hlen. apply map_empty. intros k.
      destruct (Credentials.getCredentials ls !! k) as [v|] eqn:E; [|done].
      apply elem_of_keys in E. apply length_zero_iff_nil in Hlen.
      rewrite Hlen in E. by apply elem_of_nil in E.
    - intros ->. unfold Credentials.keys. by rewrite map_to_list_empty. }
  split; [|split; [|split; [done|split; [done|]]]].
  - unfold Credentials.exportCredentials. cbv zeta.
    case_decide as Hlen; [by rewrite <- Hkeys|].
    split; [done|]. intros Hempty. by apply Hkeys in Hempty.
  - intros Hne. split.
    + unfold Credentials.exportCredentials. cbv zeta.
      case_decide as Hlen; [|done]. by apply Hkeys in Hlen.
    + cbn [Credentials.importCredentials]. f_equal.
      assert (Hobj : forall c l, Credentials.saveCredentials c l
                       = Credentials.Object
                           (Credentials.getCredentials
                              (Credentials.saveCredentials c l)))
        by done.
      rewrite Hobj. f_equal. apply map_eq. intros k.
      rewrite saveCredentials_lookup.
      cbn [Credentials.clearCredentials Credentials.getCredentials].
      rewrite (right_id_L ∅ (∪)).
      destruct (Credentials.getCredentials ls !! k) as [v|] eqn:E; [|done].
      case_decide as Hv; [|done]. subst v. by destruct (Hok k).
  - intros [creds| |] ls' message; cbn [Credentials.importCredentials];
      congruence.
Qed.

Lemma export_import_restores_witness :
  let ls := Credentials.Object {[ "groq_api_key" := "gsk"; "vtu_username" := "u1" ]} in
  no_empty_field (Credentials.getCredentials ls)
  /\ exists backup,
       Credentials.exportCredentials ls = Some backup
       /\ (Credentials.importCredentials (Credentials.JsonFile backup)
             Credentials.Absent).1 = ls.
Proof.
  intros ls.
  assert (Hok : no_empty_field (Credentials.getCredentials ls)).
  { intros k Hk. subst ls. cbn [Credentials.getCredentials] in Hk.
    rewrite lookup_insert_Some, lookup_singleton_Some in Hk.
    destruct Hk as [[_ [=]]|[_ [_ [=]]]]. }
  split; [exact Hok|].
  pose proof (export_import_restores ls Hok) as (_ & Hexp & _).
  assert (Hne : Credentials.getCredentials ls <> ∅).
  { subst ls. cbn [Credentials.getCredentials]. intros Hempty.
    apply (f_equal (fun m => m !! "groq_api_key")) in Hempty.
    by vm_compute in Hempty. }
  destruct (Hexp Hne) as [Hfile Himp].
  exists (Credentials.getCredentials ls). split; [exact Hfile|].
  unfold Credentials.clearCredentials in Himp. by rewrite Himp.
Defined.

(** *** API requests: where credentials go *)

(** X6. Credentials travel in headers only: the URL, the method and
    the body of every API request are the same whatever is stored.  The
    submission request always has content type application/json, and
    no other request sets a content type (the form uploads leave it to
    the browser); every header of a request is a credential header or,
    for the submission request, the content type. *)
Theorem credentials_only_in_headers (ls1 ls2 : Credentials.item)
    (call : Api.ApiCall) :
  Api.url (Api.request_of ls1 call) = Api.url (Api.request_of ls2 call)
  /\ Api.method (Api.request_of ls1 call) = Api.method (Api.request_of ls2 call)
  /\ Api.body (Api.request_of ls1 call) = Api.body (Api.request_of ls2 call)
  /\ Api.headers (Api.request_of ls1 call) !! "Content-Type"
     = match call with
       | Api.ApproveAndSubmit _ _ _ => Some "application/json"
       | _ => None
       end
  /\ (forall name, is_Some (Api.headers (Api.request_of ls1 call) !! name) ->
        name ∈ capability_headers.*2 \/ name = "Content-Type").
Proof.
  split; [by destruct call|]. split; [by destruct call|].
  split; [by destruct call|].
  assert (Hct : Credentials.credentialHeaders ls1 !! "Content-Type" = None).
  { apply credentialHeaders_other. cbn. set_solver. }
  split.
  - destruct call; cbn; rewrite lookup_union, Hct; cbn;
      rewrite ?lookup_empty, ?lookup_singleton_eq; done.
  - intros name [v Hv].
    destruct (decide (name ∈ capability_headers.*2)) as [|Hnot]; [by left|].
    right. pose proof (credentialHeaders_other ls1 name Hnot) as Hnone.
    destruct call; cbn in Hv; rewrite lookup_union, Hnone in Hv; cbn in Hv;
      rewrite ?lookup_empty in Hv; try done.
    rewrite (left_id_L None (∪)) in Hv.
    apply lookup_singleton_Some in Hv as [<- _]. done.
Qed.

(** *** Preview: launching, selecting, editing *)

Section PreviewMore.

Import Preview.

Lemma step_in_flight ls st ev :
  let r := step ls st ev in
  match r.2 with
  | Some _ => launching st = false /\ launching r.1 = true
  | None =>
      match ev with
      | LaunchSettled => launching r.1 = false
      | _ => launching r.1 = launching st
      end
  end.
Proof.
  cbv zeta. destruct ev; cbn [step fst snd]; try done.
  - unfold selectAll. by case_decide.
  - unfold launch_rendered, launch_disabled, handleLaunch.
    destruct (data st) as [d|]; [|done]. cbn [andb].
    destruct (bool_decide_reflect (size (selected st) = 0%nat)) as [Hz|Hz];
      cbn [orb negb]; [done|].
    destruct (launching st) eqn:Hl; cbn [negb]; [done|].
    rewrite decide_False by done. done.
Qed.

Lemma size_ids_le (es : list Api.DiaryEntry) :
  (size (ids es) <= length es)%nat
  /\ (size (ids es) = length es -> NoDup (Api.id <$> es)).
Proof.
  unfold ids. induction es as [|e es [IHle IHnd]]; cbn.
  - split; [by rewrite size_empty|]. intros _. constructor.
  - destruct (decide (Api.id e ∈ Api.id <$> es)) as [Hin|Hnot].
    + assert ({[Api.id e]} ∪ list_to_set (Api.id <$> es)
              = (list_to_set (Api.id <$> es) : gset string)) as ->.
      { apply set_eq. intros x. rewrite elem_of_union, elem_of_singleton,
          elem_of_list_to_set. naive_solver. }
      split; [lia|]. intros Hsz. lia.
    + rewrite size_union, size_singleton.
      * split; [lia|]. intros Hsz. constructor; [done|]. apply IHnd. lia.
      * apply disjoint_singleton_l. by rewrite elem_of_list_to_set.
Qed.

End PreviewMore.

(** X7. At most one launch is in flight: while the request of a launch
    has not settled, further clicks on the launch button send nothing,
    so a run sends at most one request more than launches have
    settled. *)
Theorem one_launch_in_flight (ls : Credentials.item) (st : Preview.State)
    (evs : list Preview.Event) :
  (Preview.launching st = true ->
     Preview.step ls st Preview.ClickLaunch = (st, None))
  /\ (length (Preview.run ls st evs).2
      <= count_settled evs + (if Preview.launching st then 0 else 1))%nat.
Proof.
  split.
  - intros Hl. cbn [Preview.step]. unfold Preview.launch_disabled.
    rewrite Hl, orb_true_r, andb_false_r. done.
  - revert st. induction evs as [|ev evs IH]; intros st; [cbn; lia|].
    cbn [Preview.run]. pose proof (step_in_flight ls st ev) as Hstep.
    cbv zeta in Hstep.
    destruct (Preview.step ls st ev) as [st1 r]. specialize (IH st1).
    destruct (Preview.run ls st1 evs) as [st2 rs]. cbn [fst snd] in *.
    destruct r as [q|].
    + destruct Hstep as [Hl0 Hl1]. rewrite Hl0. rewrite Hl1 in IH.
      cbn [length]. destruct ev; cbn [count_settled]; lia.
    + destruct ev; cbn [count_settled]; rewrite Hstep in IH;
        destruct (Preview.launching st); lia.
Qed.

(** X8. Selection controls.  Toggling an entry twice restores the
    selection.  For a selection drawn from the entries' ids: when the
    ids are distinct, [selectAll] selects every entry unless every
    entry is selected already, and then it clears the selection; when
    two entries share an id it can only select, never clear. *)
Theorem selection_controls (st : Preview.State) (i : string) :
  Preview.toggleEntry i (Preview.toggleEntry i st) = st
  /\ (Preview.selected st ⊆ Preview.ids (Preview.entries st) ->
      Preview.selected (Preview.selectAll st)
      = if decide (NoDup (Api.id <$> Preview.entries st)
                   /\ Preview.selected st = Preview.ids (Preview.entries st))
        then ∅ else Preview.ids (Preview.entries st)).
Proof.
  split.
  - destruct st as [d es sel dr la sh].
    unfold Preview.toggleEntry, Preview.setSelected. cbn.
    destruct (decide (i ∈ sel)) as [Hin|Hnot].
    + rewrite decide_False by set_solver. f_equal.
      apply set_eq. intros x. destruct (decide (x = i)); set_solver.
    + rewrite decide_True by set_solver. f_equal. set_solver.
  - intros Hsub. unfold Preview.selectAll.
    destruct (size_ids_le (Preview.entries st)) as [Hle Hnd].
    pose proof (subseteq_size _ _ Hsub) as Hsz.
    destruct (decide (size (Preview.selected st) = length (Preview.entries st)))
      as [Heq|Hne]; cbn.
    + rewrite decide_True; [done|]. split; [apply Hnd; lia|].
      apply leibniz_equiv, set_subseteq_size_equiv; [done|lia].
    + rewrite decide_False; [done|]. intros [Hnodup Hall]. apply Hne.
      rewrite Hall. unfold Preview.ids. rewrite size_list_to_set by done.
      by rewrite length_fmap.
Qed.

Lemma selection_controls_witness :
  let st := Preview.mount (Some Sample.good) in
  Preview.selected st ⊆ Preview.ids (Preview.entries st)
  /\ Preview.selected (Preview.selectAll st) = ∅
  /\ Preview.selected (Preview.selectAll (Preview.selectAll st))
     = Preview.ids (Preview.entries st).
Proof.
  intros st.
  assert (Hsub : Preview.selected st ⊆ Preview.ids (Preview.entries st)) by done.
  split; [exact Hsub|].
  destruct (selection_controls st "e1") as [_ Hall].
  assert (H1 : Preview.selected (Preview.selectAll st) = ∅).
  { rewrite (Hall Hsub). rewrite decide_True; [done|]. split; [|done].
    cbn. repeat constructor; set_solver. }
  split; [exact H1|].
  destruct (selection_controls (Preview.selectAll st) "e1") as [_ Hall'].
  assert (He : Preview.entries (Preview.selectAll st) = Preview.entries st).
  { unfold Preview.selectAll. by case_decide. }
  rewrite Hall', He; [|rewrite H1; apply empty_subseteq].
  rewrite decide_False; [done|]. intros [_ Heq]. rewrite H1 in Heq.
  assert (Hin : "e1" ∈ Preview.ids (Preview.entries st)) by (cbn; set_solver).
  rewrite <- Heq in Hin. set_solver.
Defined.

(** X9. Saving an edit replaces, in place, every entry that has the
    edited entry's id and nothing else: the list keeps its length and
    the selection, entries with other ids are untouched, an edit whose
    id matches no entry changes nothing, and when the edited entry is
    selected it is the edited version that a launch submits. *)
Theorem edit_replaces_in_place (st : Preview.State) (u : Api.DiaryEntry) :
  let st' := Preview.updateEntry u st in
  length (Preview.entries st') = length (Preview.entries st)
  /\ Preview.selected st' = Preview.selected st
  /\ (forall e, e ∈ Preview.entries st' -> Api.id e = Api.id u -> e = u)
  /\ (forall e, Api.id e <> Api.id u ->
        e ∈ Preview.entries st' <-> e ∈ Preview.entries st)
  /\ (Api.id u ∉ Preview.ids (Preview.entries st) ->
        Preview.entries st' = Preview.entries st)
  /\ (Api.id u ∈ Preview.ids (Preview.entries st) ->
      Api.id u ∈ Preview.selected st ->
        u ∈ Preview.approved st'
        /\ forall e, e ∈ Preview.approved st' -> Api.id e = Api.id u -> e = u).
Proof.
  cbv zeta. unfold Preview.updateEntry; cbn [Preview.entries Preview.selected
    Preview.setEntries].
  set (f := fun e => if decide (Api.id e = Api.id u) then u else e).
  assert (Hmem : forall e, e ∈ f <$> Preview.entries st ->
            Api.id e = Api.id u -> e = u).
  { intros e (e0 & -> & _)%list_elem_of_fmap. unfold f.
    case_decide; [done|]. intros ?. done. }
  split; [by rewrite length_fmap|]. split; [done|]. split; [exact Hmem|].
  split; [|split].
  - intros e Hne. rewrite list_elem_of_fmap. split.
    + intros (e0 & -> & Hin). unfold f in *. case_decide; [done|]. done.
    + intros Hin. exists e. split; [|done]. unfold f. by rewrite decide_False.
  - intros Hnot. rewrite <- (list_fmap_id (Preview.entries st)) at 2.
    apply list_fmap_ext. intros _ e He%list_elem_of_lookup_2. unfold f.
    rewrite decide_False; [done|]. intros Hid. apply Hnot.
    unfold Preview.ids. rewrite elem_of_list_to_set, <- Hid.
    apply list_elem_of_fmap. eauto.
  - intros Hin Hsel. unfold Preview.approved;
      cbn [Preview.entries Preview.selected Preview.setEntries]. split.
    + apply list_elem_of_filter. split; [done|].
      unfold Preview.ids in Hin.
      apply elem_of_list_to_set, list_elem_of_fmap in Hin as (e0 & Hid & Hin).
      apply list_elem_of_fmap. exists e0. split; [|done].
      unfold f. by rewrite decide_True.
    + intros e [_ He]%list_elem_of_filter. by apply Hmem.
Qed.

(** *** History: counters, filters and the retry button *)

Section HistoryMore.

Import History.

Lemma status_label_failed h :
  status_label h = "Failed" <-> Api.h_status h <> "success".
Proof. unfold status_label. case_decide; split; done. Qed.

Lemma history_counts_aux hs :
  (totalFailed hs + totalSuccess hs
   + length (filter (fun h => Api.h_status h <> "success"
                              /\ Api.h_status h <> "failed") hs)
   = length hs)%nat
  /\ (length (filter (fun h => status_label h = "Failed") hs)
      = length hs - totalSuccess hs)%nat
  /\ (totalSuccess hs <= length hs)%nat.
Proof.
  unfold totalFailed, totalSuccess.
  induction hs as [|h hs (IH1 & IH2 & IH3)]; [done|].
  rewrite !filter_cons.
  destruct (decide (Api.h_status h = "success")) as [Hs|Hs].
  - rewrite (decide_False (P := Api.h_status h = "failed")) by congruence.
    rewrite (decide_False (P := _ /\ _)) by tauto.
    rewrite (decide_False (P := status_label h = "Failed"))
      by (rewrite status_label_failed; tauto).
    cbn [length]. lia.
  - rewrite (decide_True (P := status_label h = "Failed"))
      by (by rewrite status_label_failed).
    destruct (decide (Api.h_status h = "failed")) as [Hf|Hf].
    + rewrite (decide_False (P := _ /\ _)) by tauto. cbn [length]. lia.
    + rewrite (decide_True (P := _ /\ _)) by tauto. cbn [length]. lia.
Qed.

Lemma length_filter_mono {A} (P Q : A -> Prop)
    `{!forall x, Decision (P x)} `{!forall x, Decision (Q x)} (l : list A) :
  (forall x, x ∈ l -> P x -> Q x) ->
  (length (filter P l) <= length (filter Q l))%nat.
Proof.
  induction l as [|x l IH]; intros Himp; [done|].
  rewrite !filter_cons.
  assert (IH' : (length (filter P l) <= length (filter Q l))%nat).
  { apply IH. intros y Hy. apply Himp. by right. }
  destruct (decide (P x)) as [Hp|Hp].
  - rewrite decide_True by (apply Himp; [left|done]). cbn [length]. lia.
  - destruct (decide (Q x)); cbn [length]; lia.
Qed.

Lemma count_failed_labels (l : list Api.HistoryEntry) :
  count_failed (status_label <$> l)
  = length (filter (fun h => status_label h = "Failed") l).
Proof.
  unfold count_failed. induction l as [|h l IH]; [done|].
  rewrite fmap_cons, !filter_cons.
  destruct (decide (status_label h = "Failed")); cbn [length]; by rewrite IH.
Qed.

Section Views.

Variable toLowerCase : string -> string.

Lemma filtered_all_empty hs : filtered toLowerCase all "" hs = hs.
Proof.
  unfold filtered. induction hs as [|h hs IH]; [done|].
  rewrite filter_cons, IH. by rewrite decide_True.
Qed.

Lemma filtered_status f search hs h :
  f <> all -> h ∈ filtered toLowerCase f search hs ->
  Api.h_status h = filter_name f.
Proof.
  intros Hf [Hm _]%list_elem_of_filter. unfold matches in Hm.
  rewrite (bool_decide_eq_true_2 _ Hf) in Hm. cbn [andb] in Hm.
  destruct (decide (Api.h_status h = filter_name f)) as [|Hne]; [done|].
  by rewrite (bool_decide_eq_true_2 _ Hne) in Hm.
Qed.

(** The Failed cells of a view, counted on the whole history. *)
Lemma count_failed_view f search hs :
  count_failed (status_column toLowerCase f search hs)
  = length (filter (fun h => status_label h = "Failed"
                             /\ matches toLowerCase f search h = true) hs).
Proof.
  unfold status_column. rewrite count_failed_labels. unfold filtered.
  by rewrite list_filter_filter.
Qed.

End Views.

End HistoryMore.

(** X10. The header counts and the table disagree on rows whose status
    is neither 'success' nor 'failed': such a row is rendered as Failed
    wherever it is shown, but it is not counted in [totalFailed], it is
    not retried, and the Failed filter hides it.  In the default view
    (no status filter, no search) the cells that read Failed number
    the total minus [totalSuccess], which is at least [totalFailed],
    with equality exactly when every status is 'success' or 'failed'.
    Under a filter or a search the table shows fewer rows: never more
    Failed cells than that, none under the Success filter, and at most
    [totalFailed] under the Failed filter. *)
Theorem failed_label_vs_failed_count (toLowerCase : string -> string)
    (hs : list Api.HistoryEntry) :
  let shown_failed f search :=
    count_failed (status_column toLowerCase f search hs) in
  shown_failed History.all "" = (length hs - History.totalSuccess hs)%nat
  /\ (History.totalFailed hs <= shown_failed History.all "")%nat
  /\ (History.totalFailed hs = shown_failed History.all ""
      <-> Forall (fun h => Api.h_status h = "success"
                           \/ Api.h_status h = "failed") hs)
  /\ (forall f search,
        (shown_failed f search <= length hs - History.totalSuccess hs)%nat)
  /\ (forall search, shown_failed History.only_success search = 0%nat)
  /\ (forall search,
        (shown_failed History.only_failed search <= History.totalFailed hs)%nat)
  /\ (forall h, h ∈ hs -> Api.h_status h <> "success" ->
        Api.h_status h <> "failed" ->
        History.status_label h = "Failed"
        /\ (h ∉ History.failedEntries hs)
        /\ (forall search,
              h ∉ History.filtered toLowerCase History.only_failed search hs)).
Proof.
  cbv zeta. destruct (history_counts_aux hs) as (Hsum & Hshown & Hle).
  assert (Hdefault : count_failed (status_column toLowerCase History.all "" hs)
                     = (length hs - History.totalSuccess hs)%nat).
  { unfold status_column.
    by rewrite filtered_all_empty, count_failed_labels. }
  rewrite Hdefault.
  split; [done|]. split; [lia|]. split; [|split; [|split; [|split]]].
  - split.
    + intros Heq. apply Forall_forall. intros h Hin.
      destruct (decide (Api.h_status h = "success")) as [|Hs]; [by left|].
      destruct (decide (Api.h_status h = "failed")) as [|Hf]; [by right|].
      exfalso.
      assert (Hmem : h ∈ filter (fun h => Api.h_status h <> "success"
                                           /\ Api.h_status h <> "failed") hs)
        by (by apply list_elem_of_filter).
      destruct (filter _ hs) as [|x l] eqn:E in Hmem, Hsum;
        [by apply elem_of_nil in Hmem|]. cbn in Hsum. lia.
    + intros Hall.
      assert (Hnil : filter (fun h => Api.h_status h <> "success"
                                      /\ Api.h_status h <> "failed") hs = []).
      { destruct (filter _ hs) as [|x l] eqn:E; [done|]. exfalso.
        assert (Hx : x ∈ filter (fun h => Api.h_status h <> "success"
                                          /\ Api.h_status h <> "failed") hs)
          by (rewrite E; left).
        apply list_elem_of_filter in Hx as [[Hs Hf] Hin].
        eapply Forall_forall in Hall; [|exact Hin]. tauto. }
      rewrite Hnil in Hsum. cbn in Hsum. lia.
  - intros f search. rewrite count_failed_view, <- Hshown.
    apply length_filter_mono. by intros h _ [Hl _].
  - intros search. rewrite count_failed_view.
    apply length_zero_iff_nil.
    set (view := filter
           (fun h => History.status_label h = "Failed"
                     /\ History.matches toLowerCase History.only_success
                          search h = true) hs).
    destruct view as [|h l] eqn:E; [done|]. exfalso.
    assert (Hh : h ∈ view) by (rewrite E; left).
    apply list_elem_of_filter in Hh as [[Hl Hm] Hin].
    apply status_label_failed in Hl. apply Hl.
    apply (filtered_status toLowerCase History.only_success search hs h);
      [done|]. by apply list_elem_of_filter.
  - intros search. rewrite count_failed_view. unfold History.totalFailed.
    apply length_filter_mono. intros h Hin [_ Hm].
    apply (filtered_status toLowerCase History.only_failed search hs h);
      [done|]. by apply list_elem_of_filter.
  - intros h Hin Hs Hf. split; [|split].
    + unfold History.status_label. by rewrite decide_False.
    + unfold History.failedEntries. rewrite list_elem_of_filter. tauto.
    + intros search Hshownrow. apply Hf.
      by apply (filtered_status toLowerCase History.only_failed search hs h).
Qed.

Lemma failed_label_vs_failed_count_witness :
  let pending := SampleHistory.row 4 "pending" None None in
  History.status_label pending = "Failed"
  /\ (pending ∉ History.failedEntries (pending :: SampleHistory.rows))
  /\ count_failed (status_column (fun s => s) History.all ""
                     (pending :: SampleHistory.rows)) = 3%nat
  /\ History.totalFailed (pending :: SampleHistory.rows) = 2%nat.
Proof.
  intros pending.
  destruct (failed_label_vs_failed_count (fun s => s)
              (pending :: SampleHistory.rows))
    as (Hcount & _ & _ & _ & _ & _ & Hrow).
  destruct (Hrow pending) as (Hlabel & Hretry & _); [left | done | done |].
  split; [exact Hlabel|]. split; [exact Hretry|].
  split; [by rewrite Hcount | reflexivity].
Defined.

(** X11. The table filter.  Whatever the search text, the rows shown
    are rows of the history, in its order; a status filter other than
    'all' shows only rows of that status; with an empty search 'all'
    shows every row and 'failed' shows exactly the rows the retry button
    resubmits. *)
Theorem filtered_rows (toLowerCase : string -> string) (f : History.Filter)
    (search : string) (hs : list Api.HistoryEntry) :
  History.filtered toLowerCase f search hs `sublist_of` hs
  /\ (f <> History.all ->
        Forall (fun h => Api.h_status h = History.filter_name f)
          (History.filtered toLowerCase f search hs))
  /\ History.filtered toLowerCase History.all "" hs = hs
  /\ History.filtered toLowerCase History.only_failed "" hs
     = History.failedEntries hs.
Proof.
  split; [apply sublist_filter|]. split; [|split].
  - intros Hf. apply Forall_forall. intros h [Hm _]%list_elem_of_filter.
    unfold History.matches in Hm.
    rewrite (bool_decide_eq_true_2 _ Hf) in Hm. cbn [andb] in Hm.
    destruct (decide (Api.h_status h = History.filter_name f)) as [|Hne];
      [done|].
    by rewrite (bool_decide_eq_true_2 _ Hne) in Hm.
  - unfold History.filtered.
    induction hs as [|h hs IH]; [done|]. rewrite filter_cons, IH.
    by rewrite decide_True.
  - unfold History.filtered, History.failedEntries.
    apply list_filter_iff. intros h. unfold History.matches.
    rewrite (bool_decide_eq_true_2 (History.only_failed <> History.all))
      by done.
    cbn [andb History.filter_name]. case_bool_decide as Hs; cbn; [|tauto].
    split; [done|]. intros Hst. by destruct Hs.
Qed.

Lemma filtered_rows_witness :
  Forall (fun h => Api.h_status h = "success")
    (History.filtered (fun s => s) History.only_success "tests"
       SampleHistory.rows).
Proof.
  exact (proj1 (proj2 (filtered_rows (fun s => s) History.only_success "tests"
                         SampleHistory.rows)) ltac:(done)).
Defined.

(** X12. The retry button and its handler agree: the button is on
    offer (rendered, and enabled when no retry is in flight) exactly
    when a click sends a request, which is exactly when some row has
    the status failed. *)
Theorem retry_button_iff_request (ls : Credentials.item) (now : Z)
    (hs : list Api.HistoryEntry) :
  (History.retry_available hs false = true
   <-> is_Some (History.handleRetryFailed ls now hs))
  /\ (is_Some (History.handleRetryFailed ls now hs)
      <-> exists h, h ∈ hs /\ Api.h_status h = "failed").
Proof.
  assert (Hlen : length (History.failedEntries hs) <> 0%nat
                 <-> exists h, h ∈ hs /\ Api.h_status h = "failed").
  { unfold History.failedEntries. split.
    - destruct (filter _ hs) as [|h l] eqn:E; [done|]. intros _.
      assert (Hin : h ∈ filter (fun e => Api.h_status e = "failed") hs)
        by (rewrite E; left).
      apply list_elem_of_filter in Hin as [Hf Hin]. eauto.
    - intros (h & Hin & Hf) Hz. apply length_zero_iff_nil in Hz.
      assert (Hin' : h ∈ filter (fun e => Api.h_status e = "failed") hs)
        by (by apply list_elem_of_filter).
      rewrite Hz in Hin'. by apply elem_of_nil in Hin'. }
  assert (Hsend : is_Some (History.handleRetryFailed ls now hs)
                  <-> length (History.failedEntries hs) <> 0%nat).
  { unfold History.handleRetryFailed. case_decide as Hz.
    - split; [by intros [? ?]|done].
    - split; [done|eauto]. }
  split; [|by rewrite Hsend].
  rewrite Hsend. unfold History.retry_available, History.totalFailed.
  fold (History.failedEntries hs). rewrite andb_true_r, bool_decide_eq_true. lia.
Qed.

(** *** Upload: what a click on Generate sends *)

Lemma generatePreview_is_generate ls i dr sw sh :
  is_generate (Api.generatePreview ls i dr sw sh)
  /\ upload_id_of (Api.generatePreview ls i dr sw sh) = Some i.
Proof. split; reflexivity. Qed.

Lemma uploads_not_generate ls x :
  ~ is_generate (Api.uploadFile ls x) /\ ~ is_generate (Api.uploadText ls x).
Proof. split; intros H; vm_compute in H; discriminate H. Qed.

(** X13. [handleGenerate] sends nothing when the form cannot be
    submitted.  Otherwise it sends at most one upload followed by at
    most one generation request: when the upload fails nothing follows
    it and the server's message (or 'Generation failed') is shown; in
    text mode the text is uploaded first, every time, and the
    generation request carries the id the server returned, not a stored
    one; in file mode with a stored upload id nothing is uploaded again
    and the generation request carries the stored id. *)
Theorem generate_sequence (trim : string -> string) (ls : Credentials.item)
    (tz : JSDate.Zone) (f : UploadPage.Form) (upload_reply : UploadPage.Reply string)
    (preview_reply : UploadPage.Reply unit) :
  let out := UploadPage.handleGenerate trim ls tz f upload_reply preview_reply in
  let rs := UploadPage.requests out in
  (UploadPage.canSubmit trim f = false -> rs = [] /\ UploadPage.navigated out = false)
  /\ (length rs <= 2)%nat
  /\ (forall i r, rs !! i = Some r -> is_generate r -> S i = length rs)
  /\ (forall m r0, upload_reply = UploadPage.Failed _ m ->
        rs !! 0%nat = Some r0 -> ~ is_generate r0 ->
        rs = [r0] /\ UploadPage.error out = Some (UploadPage.shown_error m))
  /\ (UploadPage.canSubmit trim f = true ->
      UploadPage.inputMode f = UploadPage.text_mode ->
        rs !! 0%nat = Some (Api.uploadText ls (UploadPage.text f))
        /\ forall i, upload_reply = UploadPage.Ok _ i ->
             exists r, rs !! 1%nat = Some r /\ is_generate r
                       /\ upload_id_of r = Some i)
  /\ (UploadPage.canSubmit trim f = true ->
      UploadPage.inputMode f = UploadPage.file_mode ->
      Upload.uploadId (UploadPage.core f) <> "" ->
        exists r, rs = [r] /\ is_generate r
                  /\ upload_id_of r = Some (Upload.uploadId (UploadPage.core f))).
Proof.
  cbv zeta. unfold UploadPage.handleGenerate.
  destruct (UploadPage.canSubmit trim f) eqn:Hcan; cbn [negb].
  2:{ cbn [UploadPage.requests UploadPage.navigated].
      split; [done|]. split; [cbn [length]; lia|].
      split; [intros i r Hr; by rewrite lookup_nil in Hr|].
      split; [intros m r0 _ Hr; by rewrite lookup_nil in Hr|].
      split; intros [=]. }
  split; [intros [=]|].
  set (gen := fun i => Api.generatePreview ls i (Upload.dateRange tz (UploadPage.core f))
                (Upload.skipWeekends (UploadPage.core f))
                (Upload.skipHolidays (UploadPage.core f))).
  assert (Hgen : forall i, is_generate (gen i) /\ upload_id_of (gen i) = Some i)
    by (intros i; apply generatePreview_is_generate).
  (* the three shapes a submission can take *)
  assert (Hdirect : forall i (e : option string) (n : bool),
    let out := {| UploadPage.requests := [] ++ [gen i]; UploadPage.error := e;
                  UploadPage.navigated := n |} in
    (length (UploadPage.requests out) <= 2)%nat
    /\ (forall j r, UploadPage.requests out !! j = Some r -> is_generate r ->
          S j = length (UploadPage.requests out))
    /\ (forall m r0, upload_reply = UploadPage.Failed _ m ->
          UploadPage.requests out !! 0%nat = Some r0 -> ~ is_generate r0 ->
          UploadPage.requests out = [r0]
          /\ UploadPage.error out = Some (UploadPage.shown_error m))).
  { intros i e n. cbn. split; [lia|]. split.
    - intros [|j] r [=]. done.
    - intros m r0 _ [= <-] Hno. by destruct Hno, (Hgen i). }
  assert (Hup : forall up, ~ is_generate up ->
    let out := match upload_reply with
               | UploadPage.Ok _ i =>
                   match preview_reply with
                   | UploadPage.Ok _ _ =>
                       {| UploadPage.requests := [up] ++ [gen i];
                          UploadPage.error := None; UploadPage.navigated := true |}
                   | UploadPage.Failed _ m =>
                       {| UploadPage.requests := [up] ++ [gen i];
                          UploadPage.error := Some (UploadPage.shown_error m);
                          UploadPage.navigated := false |}
                   end
               | UploadPage.Failed _ m =>
                   {| UploadPage.requests := [up];
                      UploadPage.error := Some (UploadPage.shown_error m);
                      UploadPage.navigated := false |}
               end in
    (length (UploadPage.requests out) <= 2)%nat
    /\ (forall j r, UploadPage.requests out !! j = Some r -> is_generate r ->
          S j = length (UploadPage.requests out))
    /\ (forall m r0, upload_reply = UploadPage.Failed _ m ->
          UploadPage.requests out !! 0%nat = Some r0 -> ~ is_generate r0 ->
          UploadPage.requests out = [r0]
          /\ UploadPage.error out = Some (UploadPage.shown_error m))
    /\ UploadPage.requests out !! 0%nat = Some up
    /\ (forall i, upload_reply = UploadPage.Ok _ i ->
          exists r, UploadPage.requests out !! 1%nat = Some r /\ is_generate r
                    /\ upload_id_of r = Some i)).
  { intros up Hnot. cbv zeta.
    destruct upload_reply as [i|m]; [destruct preview_reply as [u|pm]|]; cbn.
    - split; [lia|]. split; [|split; [by intros ? ? [=]|]].
      + intros [|[|j]] r [=] Hg; [by subst|done].
      + split; [done|]. intros ? [= <-]. exists (gen i). by destruct (Hgen i).
    - split; [lia|]. split; [|split; [by intros ? ? [=]|]].
      + intros [|[|j]] r [=] Hg; [by subst|done].
      + split; [done|]. intros ? [= <-]. exists (gen i). by destruct (Hgen i).
    - split; [lia|]. split; [|split].
      + intros [|j] r [=] Hg. by subst.
      + by intros ? ? [= <-] [= <-] _.
      + split; [done|]. by intros ? [=]. }
  destruct (UploadPage.inputMode f) eqn:Hmode.
  - destruct (UploadPage.file f) as [fl|] eqn:Hfile.
    + destruct (decide (Upload.uploadId (UploadPage.core f) = "")) as [Hid|Hid].
      * destruct (Hup (Api.uploadFile ls fl) (proj1 (uploads_not_generate ls fl)))
          as (H1 & H2 & H3 & _).
        split; [exact H1|]. split; [exact H2|]. split; [exact H3|].
        split; [intros _ [=]|]. by intros _ _ ?.
      * destruct preview_reply as [u|pm];
          match goal with |- context [UploadPage.Build_Outcome _ ?e ?n] =>
            destruct (Hdirect (Upload.uploadId (UploadPage.core f)) e n)
              as (H1 & H2 & H3)
          end;
          (split; [exact H1|]); (split; [exact H2|]); (split; [exact H3|]);
          (split; [intros _ [=]|]); intros _ _ _; eexists;
          (split; [reflexivity|]); apply Hgen.
    + destruct preview_reply as [u|pm];
        match goal with |- context [UploadPage.Build_Outcome _ ?e ?n] =>
          destruct (Hdirect (Upload.uploadId (UploadPage.core f)) e n)
            as (H1 & H2 & H3)
        end;
        (split; [exact H1|]); (split; [exact H2|]); (split; [exact H3|]);
        (split; [intros _ [=]|]); intros _ _ _; eexists;
        (split; [reflexivity|]); apply Hgen.
  - destruct (Hup (Api.uploadText ls (UploadPage.text f))
                (proj2 (uploads_not_generate ls (UploadPage.text f))))
      as (H1 & H2 & H3 & H4 & H5).
    split; [exact H1|]. split; [exact H2|]. split; [exact H3|].
    split; [by intros _ _|]. intros _ [=].
Qed.

Lemma generate_sequence_witness :
  let f := {| UploadPage.inputMode := UploadPage.text_mode;
              UploadPage.file := None;
              UploadPage.text := "Wrote the parser and its tests";
              UploadPage.core := SampleUpload.first_visit |} in
  let out := UploadPage.handleGenerate (fun s => s) Credentials.Absent
               SampleDates.IST f (UploadPage.Failed _ "File too large")
               (UploadPage.Ok _ tt) in
  UploadPage.canSubmit (fun s => s) f = true
  /\ UploadPage.requests out = [Api.uploadText Credentials.Absent (UploadPage.text f)]
  /\ UploadPage.error out = Some "File too large".
Proof.
  intros f out.
  assert (Hcan : UploadPage.canSubmit (fun s => s) f = true) by reflexivity.
  split; [exact Hcan|].
  pose proof (generate_sequence (fun s => s) Credentials.Absent SampleDates.IST f
                (UploadPage.Failed _ "File too large") (UploadPage.Ok _ tt))
    as (_ & _ & _ & Hfail & Htext & _).
  destruct (Htext Hcan eq_refl) as [Hfirst _].
  apply (Hfail _ _ eq_refl Hfirst), uploads_not_generate.
Defined.

(** X14. Reloading the upload page.  Every field of the form comes
    back as it was saved: input mode, text, date mode, both range
    dates, both skip options and the upload id; the dropped file is
    gone; the date selection comes back as it was, or as the current
    instant when it was empty.  With nothing saved, or with an item
    that does not parse, the page starts in file and calendar mode with
    both skip options on and the current instant selected. *)
Theorem reload_restores_form (f : UploadPage.Form) (now : JSDate.Date) :
  let f' := UploadPage.init (UploadPage.save f) now in
  UploadPage.inputMode f' = UploadPage.inputMode f
  /\ UploadPage.text f' = UploadPage.text f
  /\ UploadPage.file f' = None
  /\ Upload.dateMode (UploadPage.core f') = Upload.dateMode (UploadPage.core f)
  /\ Upload.dateFrom (UploadPage.core f') = Upload.dateFrom (UploadPage.core f)
  /\ Upload.dateTo (UploadPage.core f') = Upload.dateTo (UploadPage.core f)
  /\ Upload.skipWeekends (UploadPage.core f')
     = Upload.skipWeekends (UploadPage.core f)
  /\ Upload.skipHolidays (UploadPage.core f')
     = Upload.skipHolidays (UploadPage.core f)
  /\ Upload.uploadId (UploadPage.core f') = Upload.uploadId (UploadPage.core f)
  /\ Upload.selectedDates (UploadPage.core f')
     = (if decide (Upload.selectedDates (UploadPage.core f) = [])
        then [now] else Upload.selectedDates (UploadPage.core f))
  /\ (Upload.selectedDates (UploadPage.core f) <> [] ->
        UploadPage.core f' = UploadPage.core f)
  /\ (forall ls, ls = UploadPage.NoItem \/ ls = UploadPage.Garbage ->
        UploadPage.init ls now
        = {| UploadPage.inputMode := UploadPage.file_mode;
             UploadPage.file := None; UploadPage.text := "";
             UploadPage.core :=
               {| Upload.dateMode := Upload.calendar;
                  Upload.dateFrom := ""; Upload.dateTo := "";
                  Upload.selectedDates := [now];
                  Upload.skipWeekends := true; Upload.skipHolidays := true;
                  Upload.uploadId := "" |} |}).
Proof.
  cbv zeta. destruct f as [im fl tx [dm df dt sel sw sh uid]]. cbn.
  repeat (split; [done|]). split; [|split].
  - by destruct sel.
  - intros Hsel. by destruct sel.
  - by intros ls [-> | ->].
Qed.

Lemma reload_restores_form_witness :
  let f := {| UploadPage.inputMode := UploadPage.text_mode;
              UploadPage.file := Some "notes.txt";
              UploadPage.text := "Wrote the parser";
              UploadPage.core := SampleUpload.first_visit |} in
  UploadPage.core (UploadPage.init (UploadPage.save f) SampleDates.mon22)
  = UploadPage.core f.
Proof.
  intros f.
  pose proof (reload_restores_form f SampleDates.mon22)
    as (_ & _ & _ & _ & _ & _ & _ & _ & _ & _ & H & _).
  apply H. done.
Defined.

(** *** Progress: the activity log and the number of busy workers *)

Section ProgressMore.

Import Api Progress.

Lemma add_log_tidy prev cur : tidy prev -> tidy (add_log prev cur).
Proof.
  intros Hprev. unfold add_log.
  case_decide as Hcur; [done|]. case_decide as Hlast; [done|].
  intros i x Hx. rewrite last_lookup in Hlast.
  destruct (decide (i < length prev)%nat) as [Hi|Hi].
  - rewrite lookup_app_l in Hx by done. destruct (Hprev i x Hx) as [Hne Hnext].
    split; [done|].
    destruct (decide (S i < length prev)%nat) as [Hsi|Hsi].
    + by rewrite lookup_app_l.
    + rewrite lookup_app_r by lia.
      replace (S i - length prev)%nat with 0%nat by lia. cbn.
      intros [= ->]. apply Hlast. rewrite <- Hx. f_equal. lia.
  - rewrite lookup_app_r in Hx by lia.
    destruct (i - length prev)%nat as [|n] eqn:E; cbn in Hx; [|done].
    injection Hx as <-. split; [done|].
    rewrite lookup_app_r by lia.
    by replace (S i - length prev)%nat with 1%nat by lia.
Qed.

Lemma add_log_prefix prev cur : prev `prefix_of` add_log prev cur.
Proof.
  unfold add_log. repeat case_decide; try done. by apply prefix_app_r.
Qed.

Lemma simulate_busy data r i b :
  busy (simulate data r i b)
  <-> completed_count data + Z.of_nat i < total data.
Proof.
  unfold busy, simulate.
  destruct (Z.leb_spec (total data) (completed_count data + Z.of_nat i));
    cbn [status].
  - split; [done|lia].
  - split; [done|]. intros _.
    assert (Hin : default idle (states !! (r `mod` length states)%nat)
                  ∈ [navigating; filling; submitting])
      by apply states_lookup_mod.
    intros Hidle. rewrite Hidle in Hin.
    repeat (apply elem_of_cons in Hin as [[=]|Hin]). by apply elem_of_nil in Hin.
Qed.

Lemma busy_count data (bs : list BrowserState) :
  forall (r : nat -> nat) (k : nat),
  length (filter busy (imap (fun i b => simulate data (r i) (k + i) b) bs))
  = Z.to_nat (Z.min (Z.of_nat (length bs))
                (Z.max 0 (total data - completed_count data - Z.of_nat k))).
Proof.
  induction bs as [|b bs IH]; intros r k; [cbn; lia|].
  rewrite imap_cons, filter_cons.
  rewrite (imap_ext _ (fun i b => simulate data ((r ∘ S) i) (S k + i) b))
    by (intros i x _; cbn; do 2 f_equal; lia).
  rewrite Nat.add_0_r.
  destruct (decide (busy (simulate data (r 0%nat) k b))) as [Hb|Hb];
    rewrite simulate_busy in Hb; cbn [length]; rewrite IH; lia.
Qed.

Lemma after_polls_tidy ps : tidy (logs (after_polls ps)).
Proof.
  unfold after_polls. rewrite <- (reverse_involutive ps).
  induction (reverse ps) as [|[data rnd] l IH].
  - intros i x Hx. by cbn in Hx.
  - rewrite reverse_cons, foldl_app. cbn [foldl poll logs fst snd].
    by apply add_log_tidy.
Qed.

End ProgressMore.

(** X15. The activity log only grows, by at most one line per poll;
    after any series of polls it holds no empty line and no line that
    repeats the line before it. *)
Theorem activity_log_tidy (ps : list (Api.ProgressData * (nat -> nat)))
    (data : Api.ProgressData) (rnd : nat -> nat) :
  let before := Progress.logs (after_polls ps) in
  let after := Progress.logs (Progress.poll (after_polls ps) data rnd) in
  before `prefix_of` after
  /\ (length after <= S (length before))%nat
  /\ (forall i x, after !! i = Some x -> x <> "" /\ after !! S i <> Some x).
Proof.
  cbv zeta. cbn [Progress.poll Progress.logs]. split; [apply add_log_prefix|].
  split.
  - unfold Progress.add_log. repeat case_decide; try lia.
    rewrite length_app. cbn. lia.
  - apply add_log_tidy, after_polls_tidy.
Qed.

(** X16. The swarm keeps its five cards through every poll, and while
    the job is processing the number of cards shown at work is the
    number of entries not yet completed, at most five and at least
    none. *)
Theorem busy_workers_count (ps : list (Api.ProgressData * (nat -> nat)))
    (data : Api.ProgressData) (rnd : nat -> nat)
    (Hproc : Api.job_status data = Api.processing) :
  let cards := Progress.browsers (Progress.poll (after_polls ps) data rnd) in
  length cards = 5%nat
  /\ length (filter busy cards)
     = Z.to_nat (Z.min 5 (Z.max 0 (Api.total data - Api.completed_count data))).
Proof.
  cbv zeta. cbn [Progress.poll Progress.browsers]. rewrite Hproc. split.
  - by rewrite length_imap, after_polls_workers.
  - pose proof (busy_count data (Progress.browsers (after_polls ps)) rnd 0)
      as Hcount.
    cbn [Nat.add] in Hcount. rewrite Hcount, after_polls_workers. f_equal. lia.
Qed.

Lemma busy_workers_count_witness :
  length (filter busy
            (Progress.browsers
               (Progress.poll (after_polls []) (SamplePoll.snapshot 4 6 None)
                  (fun i => i)))) = 2%nat.
Proof.
  exact (proj2 (busy_workers_count [] (SamplePoll.snapshot 4 6 None)
                  (fun i => i) eq_refl)).
Defined.

(** *** The gauge on every number *)

Section GaugeMore.

Lemma ge_85_ge_70 s :
  JS.ge s (JS.decimal 85 100) = true -> JS.ge s (JS.decimal 7 10) = true.
Proof.
  rewrite decimal_85, decimal_7.
  destruct s as [sg|[]| |[] m e]; try (vm_compute; congruence).
  rewrite !ge_pos_finite.
  destruct (Z.ltb_spec (-53) e), (Z.eqb_spec (-53) e); try done;
    cbn [andb orb].
  destruct (7656119366529843 <=? m)%positive eqn:E85; [|done].
  destruct (6305039478318694 <=? m)%positive eqn:E70; [done|].
  intros _. exfalso. crossing_bounds m.
Qed.

Lemma ge_95_ge_85 s :
  JS.ge s (JS.decimal 95 100) = true -> JS.ge s (JS.decimal 85 100) = true.
Proof.
  rewrite decimal_95, decimal_85.
  destruct s as [sg|[]| |[] m e]; try (vm_compute; congruence).
  rewrite !ge_pos_finite.
  destruct (Z.ltb_spec (-53) e), (Z.eqb_spec (-53) e); try done;
    cbn [andb orb].
  destruct (8556839292003942 <=? m)%positive eqn:E95; [|done].
  destruct (7656119366529843 <=? m)%positive eqn:E85; [done|].
  intros _. exfalso. crossing_bounds m.
Qed.

Lemma ge_70_ge_50 s :
  JS.ge s (JS.decimal 7 10) = true -> JS.ge s (JS.decimal 5 10) = true.
Proof.
  rewrite decimal_7, decimal_5.
  destruct s as [sg|[]| |[] m e]; try (vm_compute; congruence).
  rewrite !ge_pos_finite.
  destruct (Z.ltb_spec (-53) e), (Z.eqb_spec (-53) e); try done;
    cbn [andb orb].
  destruct (6305039478318694 <=? m)%positive eqn:E70; [|done].
  destruct (4503599627370496 <=? m)%positive eqn:E50; [done|].
  intros _. exfalso. crossing_bounds m.
Qed.

(** Against a number that is not NaN, [<] is the negation of [>=]. *)
Lemma lt_not_ge s c :
  JS.isNaN s = false -> JS.isNaN c = false -> JS.lt s c = negb (JS.ge s c).
Proof.
  intros Hs Hc. unfold JS.lt, JS.ge, SFltb, SFleb.
  rewrite (SFcompare_antisym s c).
  destruct (SFcompare s c) as [[]|] eqn:E; try done.
  by destruct s, c.
Qed.

End GaugeMore.

(** X17. For every number, also NaN and numbers outside 0 to 1, the
    gauge's icon goes with the level's stylesheet class: the skull with
    gauge-danger, the warning triangle with gauge-warning and the
    shield with gauge-safe. *)
Theorem icon_matches_class (s : JS.number) :
  Utils.class (Utils.getPlausibilityLevel s)
  = icon_class (PlausibilityGauge.Icon s).
Proof.
  unfold Utils.getPlausibilityLevel, PlausibilityGauge.Icon.
  destruct (JS.ge s (JS.decimal 95 100)) eqn:H95; [done|].
  destruct (JS.ge s (JS.decimal 85 100)) eqn:H85.
  { by rewrite (ge_85_ge_70 s H85). }
  destruct (JS.ge s (JS.decimal 7 10)) eqn:H70; [done|].
  by destruct (JS.ge s (JS.decimal 5 10)).
Qed.

(** X18. Labels outside the unit interval.  For every number that is
    not NaN, negative or above 1 or infinite as it may be, the label
    and the colour are those of the one band the number lies in: below
    0.5 it is WEAK, from 0.95 on TERRIFYING.  NaN, which is what a
    missing score compares as, lies in no band and is shown as WEAK in
    grey. *)
Theorem labels_on_every_number (s : JS.number) :
  (JS.isNaN s = false ->
     forall b, in_band b s = true
       <-> Utils.label (Utils.getPlausibilityLevel s) = band_label b
           /\ PlausibilityGauge.getColor s = band_stroke b)
  /\ (JS.isNaN s = true ->
        Utils.label (Utils.getPlausibilityLevel s) = "WEAK"
        /\ PlausibilityGauge.getColor s = "#71717a"
        /\ forall b, in_band b s = false).
Proof.
  split.
  - intros Hs b. rewrite getPlausibilityLevel_band, getColor_band.
    assert (Hb : in_band b s = true <-> band_of s = b).
    { unfold in_band, band_of.
      rewrite !lt_not_ge by (done || by vm_compute).
      change (JS.decimal 70 100) with (JS.decimal 7 10).
      change (JS.decimal 50 100) with (JS.decimal 5 10).
      pose proof (ge_95_ge_85 s) as H1. pose proof (ge_85_ge_70 s) as H2.
      pose proof (ge_70_ge_50 s) as H3.
      destruct (JS.ge s (JS.decimal 95 100)), (JS.ge s (JS.decimal 85 100)),
        (JS.ge s (JS.decimal 7 10)), (JS.ge s (JS.decimal 5 10));
        try (by discriminate (H1 eq_refl));
        try (by discriminate (H2 eq_refl));
        try (by discriminate (H3 eq_refl));
        destruct b; cbn; split; congruence. }
    rewrite Hb. split.
    + by intros <-.
    + intros [Hl _]. by apply band_label_inj.
  - destruct s; try done. intros _. split; [reflexivity|].
    split; [reflexivity|]. by intros [].
Qed.

Lemma labels_on_every_number_witness :
  Utils.label (Utils.getPlausibilityLevel (JS.of_Z (-3))) = "WEAK"
  /\ Utils.label (Utils.getPlausibilityLevel (JS.of_Z 7)) = "TERRIFYING".
Proof.
  split.
  - apply (proj1 (proj1 (labels_on_every_number (JS.of_Z (-3))) eq_refl Rejected)).
    reflexivity.
  - apply (proj1 (proj1 (labels_on_every_number (JS.of_Z 7)) eq_refl
                    SuspiciouslyPerfect)).
    reflexivity.
Defined.

(** *** The calendar picker: ranges and toggles *)

Section PickerMore.

Import JSDate CalendarPicker.

Variable tz : Zone.

Lemma range_loop_walk fuel sw current end_ acc res d :
  range_loop tz fuel sw current end_ acc = Some res ->
  d ∈ res ->
  d ∈ acc \/ (on_walk tz current end_ d /\ (sw && is_weekend tz d) = false).
Proof.
  revert current acc. induction fuel as [|fuel IH]; intros current acc Hres Hd;
    [done|].
  cbn [range_loop] in Hres.
  destruct (Z.leb_spec current end_) as [Hc|Hc]; [|left; congruence].
  destruct (IH _ _ Hres Hd) as [Hin|[(k & -> & Hle) Hwk]].
  - destruct (negb sw || _) eqn:Hkeep; [|by left].
    apply elem_of_JSSet_add in Hin as [->|Hin]; [|by left].
    right. split.
    + by exists 0%nat.
    + unfold is_weekend. destruct sw; [|done]. cbn in Hkeep |- *.
      apply andb_true_iff in Hkeep as [H0 H6].
      apply negb_true_iff in H0, H6. by rewrite H0, H6.
  - right. split; [|done]. exists (S k). by rewrite Nat.iter_succ_r.
Qed.

(** Where steps advance, the walk never comes back before its start. *)
Lemma walk_advances k start :
  advances tz -> start <= Nat.iter k (next_day tz) start.
Proof.
  intros Hadv. induction k as [|k IH]; [done|].
  rewrite Nat.iter_succ. specialize (Hadv (Nat.iter k (next_day tz) start)).
  unfold HALF_DAY in Hadv. lia.
Qed.

Lemma range_loop_complete fuel sw current end_ acc res d :
  advances tz ->
  range_loop tz fuel sw current end_ acc = Some res ->
  on_walk tz current end_ d -> (sw && is_weekend tz d) = false -> d ∈ res.
Proof.
  intros Hadv. revert current acc. induction fuel as [|fuel IH];
    intros current acc Hres (k & Hd & Hle) Hwk; [done|].
  cbn [range_loop] in Hres.
  pose proof (walk_advances k current Hadv) as Hge.
  destruct (Z.leb_spec current end_) as [Hc|Hc]; [|lia].
  destruct k as [|k].
  - cbn [Nat.iter nat_rect] in Hd. subst d.
    apply (range_loop_keeps tz _ _ _ _ _ _ _ Hres).
    replace (negb sw || _) with true.
    + apply elem_of_JSSet_add. by left.
    + unfold is_weekend in Hwk. destruct sw; [|done]. cbn in Hwk |- *.
      apply orb_false_iff in Hwk as [-> ->]. done.
  - apply (IH _ _ Hres); [|done]. exists k. by rewrite <- Nat.iter_succ_r.
Qed.

End PickerMore.

(** In a zone without clock changes the walk goes by whole days. *)
Lemma on_walk_fixed east start end_ d :
  on_walk (JSDate.fixed east) start end_ d
  <-> exists k, 0 <= k /\ d = start + k * JSDate.MS_PER_DAY /\ d <= end_.
Proof.
  assert (Hiter : forall k : nat,
            Nat.iter k (JSDate.next_day (JSDate.fixed east)) start
            = start + Z.of_nat k * JSDate.MS_PER_DAY).
  { induction k as [|k IH]; [cbn; lia|].
    rewrite Nat.iter_succ, IH, next_day_fixed. lia. }
  split.
  - intros (k & -> & Hle). exists (Z.of_nat k). rewrite Hiter in Hle |- *.
    split; [lia|done].
  - intros (k & Hk & -> & Hle). exists (Z.to_nat k).
    rewrite Hiter, Z2Nat.id by done. done.
Qed.

Lemma eastern_advances : JSDate.advances SampleDates.Eastern.
Proof.
  intros d. unfold JSDate.next_day, JSDate.local_time, SampleDates.Eastern,
    JSDate.HALF_DAY, JSDate.MS_PER_DAY.
  cbn [JSDate.offset JSDate.utc].
  destruct (Z.ltb_spec d 1710054000000);
    match goal with |- _ <= (if ?c then _ else _) => destruct c end; lia.
Qed.

(** X19. A shift-click with an anchor, in any time zone, with or
    without clock changes, in which a step to the next day moves on by
    at least half a day.  When the clicked day is not a skipped weekend
    day, the handler always answers; it hands over a list that holds
    exactly the dates selected before together with the days walked
    from the earlier of anchor and clicked day to the later one, a
    calendar day at a time, less the weekend days when weekends are
    skipped; and it leaves the anchor as it was. *)
Theorem shift_click_fills_range (tz : JSDate.Zone)
    (Hadv : JSDate.advances tz) (props : CalendarPicker.Props)
    (anchor day : JSDate.Date) :
  (CalendarPicker.skipWeekends props && CalendarPicker.is_weekend tz day)
    = false ->
  exists ds,
    CalendarPicker.handleDayClick tz props (Some anchor) day true
      = Some {| CalendarPicker.onSelect := Some ds;
                CalendarPicker.lastClicked := Some anchor |}
    /\ forall d,
         d ∈ ds <->
         d ∈ CalendarPicker.selected props
         \/ (on_walk tz (Z.min anchor day) (Z.max anchor day) d
             /\ (CalendarPicker.skipWeekends props
                 && CalendarPicker.is_weekend tz d) = false).
Proof.
  intros Hday. unfold CalendarPicker.handleDayClick.
  change ((JSDate.getDay tz day =? 0) || (JSDate.getDay tz day =? 6))
    with (CalendarPicker.is_weekend tz day).
  rewrite Hday.
  destruct (range_loop_terminates tz
              (CalendarPicker.range_fuel (anchor `min` day) (anchor `max` day))
              (CalendarPicker.skipWeekends props)
              (anchor `min` day) (anchor `max` day)
              (JSSet.of_list (JSSet.of_list (CalendarPicker.selected props)))
              Hadv)
    as [res Hloop]; [done | apply range_fuel_pos; lia |].
  rewrite Hloop. cbn. exists res. split; [done|]. intros d. split.
  - intros Hd.
    destruct (range_loop_walk tz _ _ _ _ _ _ _ Hloop Hd) as [Hin|Hw];
      [left|by right].
    by rewrite !elem_of_JSSet_of_list in Hin.
  - intros [Hin|[Hw Hwk]].
    + apply (range_loop_keeps tz _ _ _ _ _ _ _ Hloop).
      by rewrite !elem_of_JSSet_of_list.
    + by apply (range_loop_complete tz _ _ _ _ _ _ _ Hadv Hloop).
Qed.

Lemma shift_click_fills_range_witness :
  CalendarPicker.handleDayClick SampleDates.Eastern
    {| CalendarPicker.selected := [];
       CalendarPicker.skipWeekends := true;
       CalendarPicker.skipHolidays := false |}
    (Some SampleDates.fri8) SampleDates.tue12 true
  = Some {| CalendarPicker.onSelect :=
              Some [SampleDates.fri8; SampleDates.mon11; SampleDates.tue12];
            CalendarPicker.lastClicked := Some SampleDates.fri8 |}
  /\ on_walk SampleDates.Eastern SampleDates.fri8 SampleDates.tue12
       SampleDates.tue12.
Proof.
  destruct (shift_click_fills_range SampleDates.Eastern eastern_advances
              {| CalendarPicker.selected := [];
                 CalendarPicker.skipWeekends := true;
                 CalendarPicker.skipHolidays := false |}
              SampleDates.fri8 SampleDates.tue12 eq_refl) as (ds & Hds & Hiff).
  assert (Hlist : ds = [SampleDates.fri8; SampleDates.mon11; SampleDates.tue12]).
  { vm_compute in Hds. injection Hds as <-. reflexivity. }
  split; [by rewrite Hds, Hlist|].
  assert (Hin : SampleDates.tue12 ∈ ds) by (rewrite Hlist; in_list).
  apply Hiff in Hin as [Hin|[Hw _]]; [by apply elem_of_nil in Hin|exact Hw].
Defined.

(** X20. A plain click, one without the shift key or without an anchor,
    on a day that is not a skipped weekend day toggles that day and
    nothing else: afterwards the day is selected exactly when it was
    not before, every other date is selected exactly when it was, and
    the day becomes the anchor.  A second plain click on the same day
    brings back the selection there was. *)
Theorem plain_click_toggles (tz : JSDate.Zone) (props : CalendarPicker.Props)
    (last : option JSDate.Date) (day : JSDate.Date) (shiftKey : bool) :
  (CalendarPicker.skipWeekends props && CalendarPicker.is_weekend tz day)
    = false ->
  shiftKey = false \/ last = None ->
  exists ds,
    CalendarPicker.handleDayClick tz props last day shiftKey
      = Some {| CalendarPicker.onSelect := Some ds;
                CalendarPicker.lastClicked := Some day |}
    /\ (day ∈ ds <-> day ∉ CalendarPicker.selected props)
    /\ (forall d, d <> day -> d ∈ ds <-> d ∈ CalendarPicker.selected props)
    /\ exists ds2,
         CalendarPicker.handleDayClick tz (with_selected ds props)
           (Some day) day false
           = Some {| CalendarPicker.onSelect := Some ds2;
                     CalendarPicker.lastClicked := Some day |}
         /\ forall d, d ∈ ds2 <-> d ∈ CalendarPicker.selected props.
Proof.
  intros Hday Hplain.
  assert (Htoggle : forall (sel : list JSDate.Date) d,
            d ∈ (if JSSet.has day (JSSet.of_list sel)
                 then JSSet.delete day (JSSet.of_list sel)
                 else JSSet.add day (JSSet.of_list sel))
            <-> (d = day /\ day ∉ sel) \/ (d <> day /\ d ∈ sel)).
  { intros sel d. unfold JSSet.has. case_bool_decide as Hin.
    - rewrite elem_of_JSSet_delete, elem_of_JSSet_of_list.
      rewrite elem_of_JSSet_of_list in Hin. naive_solver.
    - rewrite elem_of_JSSet_add, elem_of_JSSet_of_list.
      rewrite elem_of_JSSet_of_list in Hin.
      destruct (decide (d = day)) as [->|]; naive_solver. }
  set (ds := if JSSet.has day (JSSet.of_list (CalendarPicker.selected props))
             then JSSet.delete day (JSSet.of_list (CalendarPicker.selected props))
             else JSSet.add day (JSSet.of_list (CalendarPicker.selected props))).
  assert (Hfirst : CalendarPicker.handleDayClick tz props last day shiftKey
            = Some {| CalendarPicker.onSelect := Some ds;
                      CalendarPicker.lastClicked := Some day |}).
  { unfold CalendarPicker.handleDayClick.
    change ((JSDate.getDay tz day =? 0) || (JSDate.getDay tz day =? 6))
      with (CalendarPicker.is_weekend tz day).
    rewrite Hday. by destruct Hplain as [-> | ->]; [|destruct shiftKey]. }
  exists ds. split; [done|]. split; [|split].
  - unfold ds. rewrite Htoggle. naive_solver.
  - intros d Hne. unfold ds. rewrite Htoggle. naive_solver.
  - eexists. split.
    + unfold CalendarPicker.handleDayClick. cbn [with_selected
        CalendarPicker.skipWeekends CalendarPicker.selected].
      change ((JSDate.getDay tz day =? 0) || (JSDate.getDay tz day =? 6))
        with (CalendarPicker.is_weekend tz day).
      rewrite Hday. reflexivity.
    + intros d. unfold JSSet.to_list. rewrite Htoggle. unfold ds.
      rewrite !Htoggle.
      destruct (decide (d = day)) as [->|],
        (decide (day ∈ CalendarPicker.selected props)); naive_solver.
Qed.

Lemma plain_click_toggles_witness :
  exists ds,
    CalendarPicker.handleDayClick SampleDates.IST
      {| CalendarPicker.selected := [SampleDates.mon15; SampleDates.mon22];
         CalendarPicker.skipWeekends := true;
         CalendarPicker.skipHolidays := false |}
      None SampleDates.mon15 true
      = Some {| CalendarPicker.onSelect := Some ds;
                CalendarPicker.lastClicked := Some SampleDates.mon15 |}
    /\ (SampleDates.mon15 ∈ ds
        <-> SampleDates.mon15 ∉ [SampleDates.mon15; SampleDates.mon22]).
Proof.
  destruct (plain_click_toggles SampleDates.IST
              {| CalendarPicker.selected := [SampleDates.mon15; SampleDates.mon22];
                 CalendarPicker.skipWeekends := true;
                 CalendarPicker.skipHolidays := false |}
              None SampleDates.mon15 true eq_refl (or_intror eq_refl))
    as (ds & H1 & H2 & _).
  exists ds. split; [exact H1 | exact H2].
Defined.
